(** * A shallow embedding of projet_pyspark.py

    The script cleans a snapshot of FlightRadar24 flights, enriches it with
    airport, aircraft and airline catalogs and a great-circle distance, and
    answers seven aggregate queries (Q1..Q6, QB).

    Part [Geo]: the Python function [distance] (lines 54-73) over real
    arithmetic, and the PySpark conversion of its result by
    [udf(distance, FloatType())] (line 75).
    Part [GeoFloat]: the same function over IEEE 754 binary64, the
    arithmetic CPython actually runs, with its rounding and its
    [math domain error].
    Part [Frames]: DataFrames as a schema plus rows, a row being an
    association list from column names to SQL values; joins, filters and
    projections follow the Spark operators the script calls.
    Part [Queries]: the seven queries over the enriched DataFrame. *)

From Stdlib Require Import String List ZArith QArith Reals Lra Lia.
From Stdlib Require Import Permutation Sorted DecimalString.
From Stdlib Require Floats.
Import ListNotations.

(* ------------------------------------------------------------------ *)
Module Geo.

Local Open Scope R_scope.

(** Values a Python function can return here: [None], an [int] or a
    [float] (a real number stands for the Python float: this reading has
    exact arithmetic, without the rounding of binary64, which [GeoFloat]
    models). *)
Inductive pyval :=
| PyNone
| PyInt (z : Z)
| PyFloat (r : R).

(** A Python call either returns a value or raises an exception. *)
Inductive outcome :=
| Ret (v : pyval)
| Raise (exn : string).

(** [math.radians]. *)
Definition radians (x : R) : R := x * (PI / 180).

(** [math.sqrt]: raises [ValueError] on a negative argument. *)
Definition py_sqrt (x : R) : option R :=
  if Rlt_dec x 0 then None else Some (sqrt x).

(** [math.atan2] (C library semantics, signed zeros aside). *)
Definition atan2 (y x : R) : R :=
  if Rlt_dec 0 x then atan (y / x)
  else if Rlt_dec x 0 then
    (if Rle_dec 0 y then atan (y / x) + PI else atan (y / x) - PI)
  else if Rlt_dec 0 y then PI / 2
  else if Rlt_dec y 0 then - (PI / 2)
  else 0.

(** [distance] of add_distance_dataframe, lines 54-73.  An argument
    [None] is the Python [None] handed over for a null column. *)
Definition distance (lat1 lon1 lat2 lon2 : option R) : outcome :=
  match lat1, lon1, lat2, lon2 with
  | Some lat1, Some lon1, Some lat2, Some lon2 =>
      let R_ := 6373 in
      let lat1 := radians lat1 in
      let lon1 := radians lon1 in
      let lat2 := radians lat2 in
      let lon2 := radians lon2 in
      let dlon := lon2 - lon1 in
      let dlat := lat2 - lat1 in
      let a := sin (dlat / 2) ^ 2 + cos lat1 * cos lat2 * sin (dlon / 2) ^ 2 in
      match py_sqrt a, py_sqrt (1 - a) with
      | Some sa, Some s1a =>
          let c := 2 * atan2 sa s1a in
          Ret (PyFloat (R_ * c))
      | _, _ => Raise "ValueError: math domain error"
      end
  | _, _, _, _ => Ret (PyInt (-1))
  end.

(** The value Spark stores for a Python UDF declared [FloatType()]
    (pickled, non-Arrow evaluation, [EvaluatePython.makeFromJava]): a
    Python float is kept (narrowed to single precision, abstracted here),
    any value of another Python type, an [int] included, becomes null.
    [None] is the SQL null. *)
Definition udf_float_type (v : pyval) : option R :=
  match v with
  | PyFloat r => Some r
  | PyInt _ => None
  | PyNone => None
  end.

(** The column [distance] attached at line 98 for one row. *)
Definition distance_udf (lat1 lon1 lat2 lon2 : option R) : option (option R) :=
  match distance lat1 lon1 lat2 lon2 with
  | Ret v => Some (udf_float_type v)
  | Raise _ => None
  end.

(** The haversine great-circle distance in the textbook form
    [2 R asin (sqrt hav)], with the Earth radius 6373 km of the code. *)
Definition hav (lat1 lon1 lat2 lon2 : R) : R :=
  let p1 := radians lat1 in
  let p2 := radians lat2 in
  sin ((p2 - p1) / 2) ^ 2
  + cos p1 * cos p2 * sin ((radians lon2 - radians lon1) / 2) ^ 2.

Definition haversine_km (lat1 lon1 lat2 lon2 : R) : R :=
  6373 * (2 * asin (sqrt (hav lat1 lon1 lat2 lon2))).

End Geo.

(* ------------------------------------------------------------------ *)
(** * [distance] over IEEE 754 binary64

    The floats of CPython: [+], [-], [*], [/] and the C [sqrt] are the
    correctly rounded binary64 operations, Rocq's primitive floats.  The
    C library's [sin], [cos], [atan2] and [pow] are not fixed by IEEE 754:
    they are the parameters [libm_sin], [libm_cos], [libm_atan2] (CPython's
    [m_atan2], which calls it) and [libm_pow].  The wrappers [math_1],
    [math_2] and [float_pow2] follow Modules/mathmodule.c and
    Objects/floatobject.c. *)
Module GeoFloat.
Import Floats.
Local Open Scope float_scope.

Inductive pyval :=
| PyNone
| PyInt (z : Z)
| PyFloat (f : float).

Inductive outcome :=
| Ret (v : pyval)
| Raise (exn : string).

(** A float computation of the function body: a float or an exception. *)
Inductive fres :=
| FOk (f : float)
| FErr (exn : string).

Definition fbind (m : fres) (k : float -> fres) : fres :=
  match m with FOk f => k f | FErr e => FErr e end.

Local Notation "x <- m ;; k" := (fbind m (fun x => k))
  (at level 61, m at next level, right associativity).

Definition is_nan (x : float) : bool := negb (PrimFloat.eqb x x).
Definition is_inf (x : float) : bool := PrimFloat.eqb (PrimFloat.abs x) PrimFloat.infinity.
Definition is_finite (x : float) : bool := negb (is_nan x || is_inf x).

Definition domain_error : string := "ValueError: math domain error".

(** [math_1] with [can_overflow = 0] (sin, cos, sqrt): a NaN from a
    non-NaN argument, or an infinity from a finite one, raises
    [ValueError].  (Its last test, on [errno] with a finite result, only
    fires on platforms whose library reports errors that way.) *)
Definition math_1 (f : float -> float) (x : float) : fres :=
  let r := f x in
  if is_nan r && negb (is_nan x) then FErr domain_error
  else if is_inf r && is_finite x then FErr domain_error
  else FOk r.

(** [math_2] (atan2): [EDOM] for a NaN from non-NaN arguments, [ERANGE]
    for an infinity from finite ones. *)
Definition math_2 (f : float -> float -> float) (x y : float) : fres :=
  let r := f x y in
  if is_nan r && negb (is_nan x) && negb (is_nan y) then FErr domain_error
  else if is_inf r && is_finite x && is_finite y then FErr "OverflowError: math range error"
  else FOk r.

(** [float_pow] for the exponent [2.0], the one [distance] uses: NaN,
    infinities, zero, a negative base and [1.0] are settled in CPython
    itself; otherwise the C [pow] runs, and an infinite result raises
    [OverflowError]. *)
Definition float_pow2 (libm_pow : float -> float -> float) (iv : float) : fres :=
  if is_nan iv then FOk iv
  else if is_inf iv then FOk (PrimFloat.abs iv)
  else if PrimFloat.eqb iv 0 then FOk 0
  else
    let iv := PrimFloat.abs iv in
    if PrimFloat.eqb iv 1 then FOk 1
    else
      let ix := libm_pow iv 2 in
      if is_inf ix then FErr "OverflowError: (34, 'Numerical result out of range')"
      else FOk ix.

(** [Py_MATH_PI] and [math.radians]: [x * degToRad], with
    [degToRad = Py_MATH_PI / 180.0]. *)
Definition py_pi : float := 0x1.921fb54442d18p+1.
Definition degToRad : float := py_pi / 180.
Definition radians (x : float) : float := x * degToRad.

Section Libm.
Variable libm_sin libm_cos : float -> float.
Variable libm_atan2 libm_pow : float -> float -> float.

Definition math_sin := math_1 libm_sin.
Definition math_cos := math_1 libm_cos.
Definition math_sqrt := math_1 PrimFloat.sqrt.
Definition math_atan2 := math_2 libm_atan2.

(** [distance], lines 54-73; Python evaluates the operands from left to
    right.  Spark hands over a null column as [None] and a [float] column
    as a Python float. *)
Definition distance (lat1 lon1 lat2 lon2 : option float) : outcome :=
  match lat1, lon1, lat2, lon2 with
  | Some lat1, Some lon1, Some lat2, Some lon2 =>
      let R_ := 6373 in
      let lat1 := radians lat1 in
      let lon1 := radians lon1 in
      let lat2 := radians lat2 in
      let lon2 := radians lon2 in
      let dlon := lon2 - lon1 in
      let dlat := lat2 - lat1 in
      let body :=
        s1 <- math_sin (dlat / 2) ;;
        p1 <- float_pow2 libm_pow s1 ;;
        c1 <- math_cos lat1 ;;
        c2 <- math_cos lat2 ;;
        s2 <- math_sin (dlon / 2) ;;
        p2 <- float_pow2 libm_pow s2 ;;
        let a := p1 + c1 * c2 * p2 in
        sa <- math_sqrt a ;;
        s1a <- math_sqrt (1 - a) ;;
        t <- math_atan2 sa s1a ;;
        let c := 2 * t in
        FOk (R_ * c) in
      match body with
      | FOk d => Ret (PyFloat d)
      | FErr e => Raise e
      end
  | _, _, _, _ => Ret (PyInt (-1))
  end.

(** The column of [udf(distance, FloatType())] (line 98): [None] when the
    Python function raises (the task, hence the job, fails), a float kept
    (narrowed to single precision, abstracted here), an [int] turned into
    null. *)
Definition distance_udf (lat1 lon1 lat2 lon2 : option float) : option (option float) :=
  match distance lat1 lon1 lat2 lon2 with
  | Ret (PyFloat f) => Some (Some f)
  | Ret _ => Some None
  | Raise _ => None
  end.

End Libm.

(** The values the C library returns at the arguments [distance] reaches
    for the points (-82, -180) and (82, 0): the correctly rounded [sin]
    and [cos] (those of glibc). *)
Definition sin_82 : float := 0x1.fb046a930947ap-1.
Definition cos_82 : float := 0x1.1d06c968d9e1ap-3.

End GeoFloat.

(* ------------------------------------------------------------------ *)
Module Frames.

Local Open Scope string_scope.
Local Open Scope list_scope.

(** SQL values of the columns the script touches.  Floating-point
    columns hold rationals: the queries only compare, add and divide them. *)
Inductive value :=
| VNull
| VStr (s : string)
| VInt (z : Z)
| VFloat (q : Q)
| VBool (b : bool).

Definition value_eq_dec (v w : value) : {v = w} + {v <> w}.
Proof.
  decide equality;
    first [ apply string_dec | apply Z.eq_dec | apply Bool.bool_dec
          | decide equality; first [ apply Pos.eq_dec | apply Z.eq_dec ] ].
Defined.

Definition value_eqb (v w : value) : bool :=
  if value_eq_dec v w then true else false.

Definition is_null (v : value) : bool :=
  match v with VNull => true | _ => false end.

(** A row maps column names to values; a DataFrame has a schema and rows. *)
Definition row := list (string * value).

Record frame := Frame { cols : list string; rows : list row }.

Fixpoint row_lookup (r : row) (c : string) : option value :=
  match r with
  | [] => None
  | (n, v) :: r' => if String.eqb n c then Some v else row_lookup r' c
  end.

(** [df.c] / [col("c")]: the value of the first column named [c]. *)
Definition col (r : row) (c : string) : value :=
  match row_lookup r c with Some v => v | None => VNull end.

(** ** SQL three-valued logic: [None] is the unknown truth value. *)
Definition sql_not (b : option bool) : option bool := option_map negb b.

Definition sql_and (a b : option bool) : option bool :=
  match a, b with
  | Some false, _ | _, Some false => Some false
  | Some true, Some true => Some true
  | _, _ => None
  end.

Definition sql_or (a b : option bool) : option bool :=
  match a, b with
  | Some true, _ | _, Some true => Some true
  | Some false, Some false => Some false
  | _, _ => None
  end.

Definition num (v : value) : option Q :=
  match v with
  | VInt z => Some (inject_Z z)
  | VFloat q => Some q
  | _ => None
  end.

(** [=] between two values; null on either side gives unknown. *)
Definition sql_eq (v w : value) : option bool :=
  match v, w with
  | VNull, _ | _, VNull => None
  | VStr a, VStr b => Some (String.eqb a b)
  | VBool a, VBool b => Some (Bool.eqb a b)
  | _, _ =>
      match num v, num w with
      | Some x, Some y => Some (Qeq_bool x y)
      | _, _ => Some false
      end
  end.

(** [>] on numbers. *)
Definition sql_gt (v w : value) : option bool :=
  match num v, num w with
  | Some x, Some y => Some (negb (Qle_bool x y))
  | _, _ => None
  end.

(** [v.isin(l)]: [v = x1 OR v = x2 OR ...]. *)
Definition sql_isin (v : value) (l : list value) : option bool :=
  fold_right (fun x acc => sql_or (sql_eq v x) acc) (Some false) l.

Definition sql_is_not_null (v : value) : option bool := Some (negb (is_null v)).

(** A WHERE / filter keeps a row only when its condition is true. *)
Definition holds (b : option bool) : bool :=
  match b with Some true => true | _ => false end.

(** ** DataFrame operators *)
Definition filter_df (p : row -> option bool) (df : frame) : frame :=
  Frame (cols df) (filter (fun r => holds (p r)) (rows df)).

Definition keep_col (cs : list string) (n : string) : bool :=
  negb (existsb (String.eqb n) cs).

Definition drop_row (cs : list string) (r : row) : row :=
  filter (fun nv => keep_col cs (fst nv)) r.

(** [df.drop(c1, c2, ...)]: removes every column carrying one of the names. *)
Definition drop (cs : list string) (df : frame) : frame :=
  Frame (filter (keep_col cs) (cols df)) (map (drop_row cs) (rows df)).

Definition rename_name (a b n : string) : string :=
  if String.eqb n a then b else n.

(** [df.withColumnRenamed(a, b)]. *)
Definition rename (a b : string) (df : frame) : frame :=
  Frame (map (rename_name a b) (cols df))
        (map (map (fun nv => (rename_name a b (fst nv), snd nv))) (rows df)).

(** [df.select(c1, c2, ...)]. *)
Definition select (cs : list string) (df : frame) : frame :=
  Frame cs (map (fun r => map (fun c => (c, col r c)) cs) (rows df)).

Definition row_set (c : string) (v : value) (r : row) : row :=
  if existsb (fun nv => String.eqb (fst nv) c) r
  then map (fun nv => if String.eqb (fst nv) c then (c, v) else nv) r
  else r ++ [(c, v)].

(** [df.withColumn(c, f)]: replaces column [c] or appends it. *)
Definition with_column (c : string) (f : row -> value) (df : frame) : frame :=
  Frame (if existsb (String.eqb c) (cols df) then cols df else cols df ++ [c])
        (map (fun r => row_set c (f r) r) (rows df)).

Definition null_row (cs : list string) : row := map (fun c => (c, VNull)) cs.

(** One left row of a left outer join: one output row per matching right
    row, or a single row padded with nulls when nothing matches. *)
Definition left_join_row (on : row -> row -> option bool) (out : row -> row -> row)
    (rr : list row) (nulls : row) (a : row) : list row :=
  match filter (fun b => holds (on a b)) rr with
  | [] => [out a nulls]
  | ms => map (out a) ms
  end.

(** [l.join(r, [key], how='left')]: the key column comes first, then the
    other columns of [l], then the other columns of [r]; the key value is
    the left one. *)
Definition using_out (key : string) (a b : row) : row :=
  (key, col a key) :: drop_row [key] a ++ drop_row [key] b.

Definition join_using_left (key : string) (l r : frame) : frame :=
  Frame (key :: filter (keep_col [key]) (cols l) ++ filter (keep_col [key]) (cols r))
        (flat_map (left_join_row (fun a b => sql_eq (col a key) (col b key))
                     (using_out key) (rows r) (null_row (cols r)))
                  (rows l)).

(** [l.join(r, cond, how='left')]: all columns of [l], then all of [r]. *)
Definition join_on_left (cond : row -> row -> option bool) (l r : frame) : frame :=
  Frame (cols l ++ cols r)
        (flat_map (left_join_row cond (@app _) (rows r) (null_row (cols r))) (rows l)).

(** [l.join(r, cond)]: inner join. *)
Definition join_on_inner (cond : row -> row -> option bool) (l r : frame) : frame :=
  Frame (cols l ++ cols r)
        (flat_map (fun a => map (app a) (filter (fun b => holds (cond a b)) (rows r)))
                  (rows l)).

(** ** The cleaning, enrichment and activity stages *)

(** clean_dataframe, lines 41-47. *)
Definition placeholders : list value := [VStr "NaN"; VStr "N/A"].

Definition clean_dataframe (df : frame) : frame :=
  let df := filter_df (fun r => sql_not (sql_isin (col r "destination_airport_iata") placeholders)) df in
  filter_df (fun r => sql_not (sql_isin (col r "origin_airport_iata") placeholders)) df.

(** get_active_flights, lines 132-136. *)
Definition get_active_flights (df : frame) : frame :=
  filter_df (fun r => sql_eq (col r "on_ground") (VInt 0)) df.

Section Enrich.

(** Spark's [cast("float")] of a CSV string column. *)
Variable cast_float : value -> value.
(** The value of [distance_udf] for the four coordinate columns (see
    [Geo.distance_udf] for the function itself). *)
Variable distance_col : value -> value -> value -> value -> value.

Definition airport_dropped : list string :=
  ["id"; "ident"; "type"; "name"; "elevation_ft"; "iso_region"; "municipality";
   "scheduled_service"; "gps_code"; "local_code"; "home_link"; "wikipedia_link";
   "keywords"; "iso_country"].

(** The airport catalog of add_distance_dataframe, lines 77-83. *)
Definition prepare_airports (raw : frame) : frame :=
  let a := drop airport_dropped raw in
  let a := filter_df (fun r => sql_and (sql_is_not_null (col r "iata_code"))
                                       (sql_is_not_null (col r "continent"))) a in
  let a := with_column "latitude_deg" (fun r => cast_float (col r "latitude_deg")) a in
  with_column "longitude_deg" (fun r => cast_float (col r "longitude_deg")) a.

(** Lines 85-93. *)
Definition airport_destination (raw : frame) : frame :=
  rename "continent" "destination_airport_continent"
    (rename "longitude_deg" "destination_longitude_deg"
      (rename "latitude_deg" "destination_latitude_deg"
        (rename "iata_code" "destination_airport_iata" (prepare_airports raw)))).

Definition airport_origin (raw : frame) : frame :=
  rename "continent" "origin_airport_continent"
    (rename "longitude_deg" "origin_longitude_deg"
      (rename "latitude_deg" "origin_latitude_deg"
        (rename "iata_code" "origin_airport_iata" (prepare_airports raw)))).

(** The two airport join stages, lines 95 and 96. *)
Definition destination_join (airports df : frame) : frame :=
  join_using_left "destination_airport_iata" df (airport_destination airports).

Definition origin_join (airports df : frame) : frame :=
  join_using_left "origin_airport_iata" df (airport_origin airports).

(** add_distance_dataframe, lines 51-100. *)
Definition add_distance_dataframe (airports df : frame) : frame :=
  let df := destination_join airports df in
  let df := origin_join airports df in
  with_column "distance"
    (fun r => distance_col (col r "origin_latitude_deg") (col r "origin_longitude_deg")
                           (col r "destination_latitude_deg") (col r "destination_longitude_deg"))
    df.

(** add_aircrafts_dataframe, lines 103-112. *)
Definition prepare_aircrafts (planes : frame) : frame :=
  let p := drop ["_c1"] planes in
  let p := rename "_c2" "aircraft_code" (rename "_c0" "aircraft_name" p) in
  filter_df (fun r => sql_is_not_null (col r "aircraft_code")) p.

Definition add_aircrafts_dataframe (planes df : frame) : frame :=
  join_on_left (fun a b => sql_eq (col a "aircraft_code") (col b "aircraft_code"))
    df (prepare_aircrafts planes).

(** add_airlines_dataframe, lines 114-127. *)
Definition prepare_airlines (airlines : frame) : frame :=
  let a := select ["_c1"; "_c3"; "_c4"] airlines in
  let a := rename "_c4" "airline_icao"
             (rename "_c3" "airline_iata" (rename "_c1" "airline_name" a)) in
  filter_df (fun r => sql_or (sql_is_not_null (col r "airline_iata"))
                             (sql_is_not_null (col r "airline_icao"))) a.

Definition airline_cond (a b : row) : option bool :=
  sql_or (sql_eq (col a "airline_icao") (col b "airline_icao"))
         (sql_eq (col a "airline_iata") (col b "airline_iata")).

Definition add_airlines_dataframe (airlines df : frame) : frame :=
  let df := join_on_left airline_cond df (prepare_airlines airlines) in
  drop ["airline_iata"] (drop ["airline_icao"] df).

(** Lines 142-146 after the snapshot is taken. *)
Definition enrich (airports planes airlines df : frame) : frame :=
  add_airlines_dataframe airlines
    (add_aircrafts_dataframe planes (add_distance_dataframe airports (clean_dataframe df))).

End Enrich.

End Frames.

(* ------------------------------------------------------------------ *)
Module Queries.
Import Frames.

Local Open Scope string_scope.
Local Open Scope list_scope.

Definition pair_dec {A B : Type}
    (da : forall x y : A, {x = y} + {x <> y})
    (db : forall x y : B, {x = y} + {x <> y}) :
    forall x y : A * B, {x = y} + {x <> y}.
Proof.
  intros [a b] [c d].
  destruct (da a c) as [<- | Hn]; [| right; congruence].
  destruct (db b d) as [<- | Hn]; [left; reflexivity | right; congruence].
Defined.

Definition decb {A : Type} (dec : forall x y : A, {x = y} + {x <> y}) (x y : A) : bool :=
  if dec x y then true else false.

(** [GROUP BY key]: one group per distinct key (null is a key like any
    other), holding the rows with that key.  Spark fixes no order of the
    groups. *)
Definition group_by {K : Type} (dec : forall x y : K, {x = y} + {x <> y})
    (key : row -> K) (rs : list row) : list (K * list row) :=
  map (fun k => (k, filter (fun r => decb dec (key r) k) rs)) (nodup dec (map key rs)).

(** [COUNT(c)]: the rows where [c] is not null. *)
Definition count_nonnull (c : string) (rs : list row) : nat :=
  length (filter (fun r => negb (is_null (col r c))) rs).

(** [ORDER BY n DESC] as a stable insertion sort. *)
Fixpoint insert_desc {A : Type} (cnt : A -> nat) (x : A) (l : list A) : list A :=
  match l with
  | [] => [x]
  | y :: l' => if Nat.leb (cnt y) (cnt x) then x :: y :: l' else y :: insert_desc cnt x l'
  end.

Definition sort_desc {A : Type} (cnt : A -> nat) (l : list A) : list A :=
  fold_right (insert_desc cnt) [] l.

(** [ROW_NUMBER() OVER (PARTITION BY part ORDER BY cnt DESC)] followed by
    [WHERE row_number <= n]. *)
Definition row_number_le {A P : Type} (dec : forall x y : P, {x = y} + {x <> y})
    (part : A -> P) (cnt : A -> nat) (n : nat) (xs : list A) : list A :=
  flat_map (fun p => firstn n (sort_desc cnt (filter (fun x => decb dec (part x) p) xs)))
           (nodup dec (map part xs)).

(** df_continent, lines 152-163: (continent_name, continent). *)
Definition df_continent : list (string * string) :=
  [("North America", "NA"); ("South America", "SA"); ("Europe", "EU");
   ("Asia", "AS"); ("Africa", "AF"); ("Australia", "OC")].

(** [x.join(df_continent, x.k == df_continent.continent, how='left')]
    followed by dropping the code columns: the [continent_name] values a
    row with code [k] is extended with. *)
Definition continent_names (k : value) : list value :=
  match filter (fun nc => holds (sql_eq k (VStr (snd nc)))) df_continent with
  | [] => [VNull]
  | ms => map (fun nc => VStr (fst nc)) ms
  end.

(** Q1, lines 171-175: (airline_name, nb_flights). *)
Definition q1 (active : frame) : list (value * nat) :=
  let g := map (fun kr => (fst kr, count_nonnull "airline_name" (snd kr)))
               (group_by value_eq_dec (fun r => col r "airline_name") (rows active)) in
  firstn 1 (sort_desc snd g).

(** Q2, lines 181-205. *)
Definition key3_dec := pair_dec (pair_dec value_eq_dec value_eq_dec) value_eq_dec.

Definition q2_counts (active : frame) : list (value * value * value * nat) :=
  map (fun kr => (fst kr, count_nonnull "airline_name" (snd kr)))
      (group_by key3_dec
         (fun r => (col r "origin_airport_continent", col r "destination_airport_continent",
                    col r "airline_name"))
         (rows active)).

(** After the filter, the renames and the drop: (continent, airline_name,
    number_of_flights). *)
Definition q2_regional (active : frame) : list (value * value * nat) :=
  map (fun t => match t with (oc, dc, an, n) => (dc, an, n) end)
      (filter (fun t => match t with (oc, dc, _, _) => holds (sql_eq oc dc) end)
              (sort_desc snd (q2_counts active))).

Definition q2_ranked (active : frame) : list (value * value * nat) :=
  row_number_le value_eq_dec (fun t => fst (fst t)) snd 1 (q2_regional active).

(** Final Q2: (airline_name, number_of_flights, continent_name). *)
Definition q2 (active : frame) : list (value * nat * value) :=
  flat_map (fun t => match t with
                     | (k, an, n) => map (fun nm => (an, n, nm)) (continent_names k)
                     end)
           (q2_ranked active).

(** [MAX(c)]: the largest non-null number, null when there is none. *)
Definition sql_max (vs : list value) : value :=
  fold_right (fun v acc =>
                match num v, num acc with
                | Some x, Some y => if Qle_bool y x then v else acc
                | Some _, None => v
                | None, _ => acc
                end) VNull vs.

(** Q3, lines 211-214: [SELECT *]. *)
Definition q3 (active : frame) : list row :=
  let m := sql_max (map (fun r => col r "distance") (rows active)) in
  filter (fun r => holds (sql_eq (col r "distance") m)) (rows active).

(** [AVG(c)]: the mean of the non-null numbers, null when there is none. *)
Definition nums (vs : list value) : list Q :=
  flat_map (fun v => match num v with Some q => [q] | None => [] end) vs.

Definition sum_Q (qs : list Q) : Q := fold_right Qplus 0%Q qs.

Definition sql_avg (vs : list value) : value :=
  match nums vs with
  | [] => VNull
  | qs => VFloat (sum_Q qs / inject_Z (Z.of_nat (length qs)))
  end.

Definition positive_distance (r : row) : bool :=
  holds (sql_gt (col r "distance") (VFloat 0)).

(** Q4, lines 222-227: (origin_airport_continent, distance_mean). *)
Definition q4_agg (df : frame) : list (value * value) :=
  map (fun kr => (fst kr, sql_avg (map (fun r => col r "distance") (snd kr))))
      (group_by value_eq_dec (fun r => col r "origin_airport_continent")
                (filter positive_distance (rows df))).

(** Final Q4, lines 229-230: (distance_mean, continent_name). *)
Definition q4 (df : frame) : list (value * value) :=
  flat_map (fun km => map (fun nm => (snd km, nm)) (continent_names (fst km))) (q4_agg df).

(** Q5, lines 236-242: (aircraft, number_of_flights). *)
Definition q5 (active : frame) : list (value * nat) :=
  let g := map (fun kr => (fst kr, count_nonnull "aircraft_name" (snd kr)))
               (group_by value_eq_dec (fun r => col r "aircraft_name") (rows active)) in
  firstn 1 (sort_desc snd g).

(** Q6, lines 248-266: (airline_name, aircraft_name, number_of_flights). *)
Definition q6_counts (df : frame) : list (value * value * nat) :=
  map (fun kr => (fst kr, count_nonnull "airline_name" (snd kr)))
      (group_by (pair_dec value_eq_dec value_eq_dec)
                (fun r => (col r "airline_name", col r "aircraft_name")) (rows df)).

Definition q6_filtered (df : frame) : list (value * value * nat) :=
  filter (fun t => negb (is_null (snd (fst t))))
    (filter (fun t => negb (is_null (fst (fst t)))) (sort_desc snd (q6_counts df))).

Definition q6 (df : frame) : list (value * value * nat) :=
  row_number_le value_eq_dec (fun t => fst (fst t)) snd 3 (q6_filtered df).

(** QB, lines 272-301. *)
Definition qb_departures (df : frame) : list (value * nat) :=
  filter (fun kn => negb (is_null (fst kn)))
    (map (fun kr => (fst kr, count_nonnull "id" (snd kr)))
         (group_by value_eq_dec (fun r => col r "origin_airport_iata") (rows df))).

Definition qb_arrivals (df : frame) : list (value * nat) :=
  filter (fun kn => negb (is_null (fst kn)))
    (map (fun kr => (fst kr, count_nonnull "id" (snd kr)))
         (group_by value_eq_dec (fun r => col r "destination_airport_iata") (rows df))).

(** The inner join on the airport code and [abs(nb_departures -
    nb_arrivals)], after the drop and the rename: (airport_iata, difference). *)
Definition qb_diffs (df : frame) : list (value * Z) :=
  flat_map (fun o => map (fun d => (fst d, Z.abs (Z.of_nat (snd o) - Z.of_nat (snd d))))
                         (filter (fun d => holds (sql_eq (fst o) (fst d))) (qb_arrivals df)))
           (qb_departures df).

Definition max_Z (zs : list Z) : option Z :=
  fold_right (fun z acc => match acc with None => Some z | Some m => Some (Z.max z m) end)
             None zs.

Definition qb (df : frame) : list (value * Z) :=
  let ds := qb_diffs df in
  let m := max_Z (map snd ds) in
  filter (fun d => holds (match m with None => None | Some m => Some (snd d =? m)%Z end)) ds.

End Queries.

(* ------------------------------------------------------------------ *)
(** * The snapshot file name of get_and_write_flights, lines 17-29 *)
Module Snapshot.
Local Open Scope string_scope.

(** The fields of [datetime.now()] the function reads. *)
Record datetime := Datetime {
  year : nat; month : nat; day : nat;
  hour : nat; minute : nat; second : nat; microsecond : nat }.

(** [f"{n}"] for a non-negative Python int: its decimal digits, with no
    padding ("0" for zero). *)
Definition str_nat (n : nat) : string := NilZero.string_of_uint (Nat.to_uint n).

(** get_file_name, lines 17-29, for the time [now]. *)
Definition get_file_name (now : datetime) : string :=
  let year := str_nat (year now) in
  let month := str_nat (month now) in
  let day := str_nat (day now) in
  let hour := str_nat (hour now) in
  let minute := str_nat (minute now) in
  let second := str_nat (second now) in
  let milisecond := str_nat (Nat.div (microsecond now) 10000) in
  "Flights/rawzone/tech_year=" ++ year ++ "/tech_month=" ++ year ++ "-" ++ month
  ++ "/tech_day=" ++ year ++ "-" ++ month ++ "-" ++ day
  ++ "/flights" ++ year ++ month ++ day ++ hour ++ minute ++ second ++ milisecond ++ ".csv".

(** The storage the snapshots are written to: the content at each path
    (the CSV encoding is abstracted: the content is the DataFrame). *)
Definition store := string -> option Frames.frame.

(** [df.coalesce(1).write.csv(path, mode='overwrite', header=True,
    sep=';')], line 36: what was at [path] is replaced by [df]. *)
Definition write_csv_overwrite (path : string) (df : Frames.frame) (fs : store) : store :=
  fun p => if String.eqb p path then Some df else fs p.

(** get_and_write_flights, lines 14-37, run at time [now]: [flights] is
    [spark.createDataFrame(fr_api.get_flights())]; the function returns it
    and the storage after the write. *)
Definition get_and_write_flights (now : datetime) (flights : Frames.frame) (fs : store)
    : Frames.frame * store :=
  let df := flights in
  (df, write_csv_overwrite (get_file_name now) df fs).

End Snapshot.

(* ------------------------------------------------------------------ *)
(** * Notions of the specification, stated over the model *)
Module SpecDefs.
Import Frames Queries.
Local Open Scope string_scope.
Local Open Scope list_scope.

(** An airport code the spec calls usable: present and not a
    not-available placeholder. *)
Definition usable_code (v : value) : bool :=
  match v with
  | VNull => false
  | VStr s => negb (String.eqb s "NaN" || String.eqb s "N/A")
  | _ => true
  end.

(** Row [r] still carries every attribute of [a] with its value. *)
Definition preserves (a r : row) : Prop :=
  forall c v, row_lookup a c = Some v -> row_lookup r c = Some v.

(** The same, except for the columns named in [cs]. *)
Definition preserves_except (cs : list string) (a r : row) : Prop :=
  forall c v, keep_col cs c = true -> row_lookup a c = Some v -> row_lookup r c = Some v.

(** The rows a left outer join stage produces for one left row [a]:
    [m] copies when [m] right rows match ([m >= 1]), one otherwise; each
    output row satisfies [keep a]; with no match the single row is [pad a]. *)
Definition left_join_stage (f : row -> list row) (matches : row -> nat)
    (keep : row -> row -> Prop) (pad : row -> row) : Prop :=
  forall a, length (f a) = Nat.max 1 (matches a)
            /\ Forall (keep a) (f a)
            /\ (matches a = 0%nat -> f a = [pad a]).

(** Active flights from continent [s] to continent [s] flown by airline
    [an] (counting non-null airline names, as [COUNT(airline_name)]). *)
Definition regional_count (active : frame) (s : string) (an : value) : nat :=
  count_nonnull "airline_name"
    (filter (fun r => value_eqb (col r "origin_airport_continent") (VStr s)
                      && value_eqb (col r "destination_airport_continent") (VStr s)
                      && value_eqb (col r "airline_name") an) (rows active)).

(** Flights of airline [an] on aircraft [ac]. *)
Definition pair_count (df : frame) (an ac : value) : nat :=
  length (filter (fun r => value_eqb (col r "airline_name") an
                           && value_eqb (col r "aircraft_name") ac) (rows df)).

(** Departures from / arrivals at airport [s] ([COUNT(id)]). *)
Definition departures (df : frame) (s : string) : nat :=
  count_nonnull "id" (filter (fun r => value_eqb (col r "origin_airport_iata") (VStr s)) (rows df)).

Definition arrivals (df : frame) (s : string) : nat :=
  count_nonnull "id" (filter (fun r => value_eqb (col r "destination_airport_iata") (VStr s)) (rows df)).

(** The arithmetic mean of a non-empty list of rationals. *)
Definition mean_Q (qs : list Q) : Q := sum_Q qs / inject_Z (Z.of_nat (length qs)).

(** The grouping key of Q2. *)
Definition key3 (r : row) : value * value * value :=
  (col r "origin_airport_continent", col r "destination_airport_continent", col r "airline_name").

(** The number of rows of [rr] that a left row [a] matches on [on]. *)
Definition matches_on (on : row -> row -> option bool) (rr : list row) (a : row) : nat :=
  length (filter (fun b => holds (on a b)) rr).

(** A join stage from [ins] to [out]: the output is the concatenation, in
    the order of [ins], of the blocks [f a] of a [left_join_stage]. *)
Definition stage_of (out ins : list row) (matches : row -> nat)
    (keep : row -> row -> Prop) (pad : row -> row) : Prop :=
  exists f, out = flat_map f ins /\ left_join_stage f matches keep pad.

(** In a padded row, each column of the catalog [cs] that the flight did
    not have is null. *)
Definition new_cols_null (cs : list string) (pad : row -> row) : Prop :=
  forall a c, In c cs -> row_lookup a c = None -> col (pad a) c = VNull.

(** What the two drops of add_airlines_dataframe make of a joined row. *)
Definition airline_drops (r : row) : row :=
  drop_row ["airline_iata"] (drop_row ["airline_icao"] r).

(** [COUNT(c)] over the rows whose column [c] equals [v]: the count Q1
    and Q5 give the group [v] of [GROUP BY c]. *)
Definition count_where (df : frame) (c : string) (v : value) : nat :=
  count_nonnull c (filter (fun r => value_eqb (col r c) v) (rows df)).

(** A flight code that no row of the catalog [cat] carries in its column
    [key]: null, or a string absent from the catalog. *)
Definition unknown_code (cat : frame) (key : string) (v : value) : Prop :=
  v = VNull \/ exists s, v = VStr s /\ ~ In (VStr s) (map (fun b => col b key) (rows cat)).

(** An airport code as the flight feed carries it: a string or null. *)
Definition string_or_null (v : value) : bool :=
  match v with VNull | VStr _ => true | _ => false end.

End SpecDefs.

(* ================================================================== *)
(** * Facts about the distance function *)
Module GeoFacts.
Import Geo.
Local Open Scope R_scope.

(** The haversine term lies in [0, 1] for every real input. *)
Lemma hav_term_bounds (x y e : R) :
  0 <= sin ((y - x) / 2) ^ 2 + cos x * cos y * sin (e / 2) ^ 2 <= 1.
Proof.
  set (s := sin (e / 2) ^ 2).
  assert (Hs : 0 <= s <= 1).
  { unfold s; pose proof (SIN_bound (e / 2)); split; nra. }
  assert (Hd : sin ((y - x) / 2) ^ 2 = (1 - cos (y - x)) / 2).
  { replace (cos (y - x)) with (cos (2 * ((y - x) / 2))) by (f_equal; lra).
    rewrite cos_2a_sin; simpl; field. }
  rewrite Hd, cos_minus.
  pose proof (COS_bound (y - x)) as Hm; rewrite cos_minus in Hm.
  pose proof (COS_bound (y + x)) as Hp; rewrite cos_plus in Hp.
  destruct (Rle_lt_dec 0 (cos x * cos y)); split; nra.
Qed.

Lemma hav_bounds (lat1 lon1 lat2 lon2 : R) :
  0 <= hav lat1 lon1 lat2 lon2 <= 1.
Proof. unfold hav; apply hav_term_bounds. Qed.

(** The code's [2 * atan2(sqrt a, sqrt (1 - a))] is the textbook
    [2 * asin (sqrt a)] on [0, 1]. *)
Lemma atan2_sqrt_asin (a : R) :
  0 <= a <= 1 -> atan2 (sqrt a) (sqrt (1 - a)) = asin (sqrt a).
Proof.
  intros [H0 H1].
  pose proof PI_RGT_0.
  assert (Hsa : sqrt a * sqrt a = a) by (apply sqrt_sqrt; lra).
  pose proof (sqrt_pos a) as Hp.
  destruct (Rlt_le_dec a 1) as [Hlt | Hge].
  - assert (Hq : 0 < sqrt (1 - a)) by (apply sqrt_lt_R0; lra).
    assert (Hsa1 : sqrt a < 1).
    { rewrite <- sqrt_1; apply sqrt_lt_1; lra. }
    unfold atan2; destruct (Rlt_dec 0 (sqrt (1 - a))) as [_ | n]; [| lra].
    rewrite asin_atan by lra.
    f_equal; f_equal; f_equal.
    unfold Rsqr; rewrite Hsa; reflexivity.
  - assert (Ha : a = 1) by lra; subst a.
    rewrite Rminus_diag, sqrt_0, sqrt_1, asin_1.
    unfold atan2.
    destruct (Rlt_dec 0 0); [lra |].
    destruct (Rlt_dec 0 0); [lra |].
    destruct (Rlt_dec 0 1); [reflexivity | lra].
Qed.

Lemma distance_some (lat1 lon1 lat2 lon2 : R) :
  distance (Some lat1) (Some lon1) (Some lat2) (Some lon2)
  = Ret (PyFloat (haversine_km lat1 lon1 lat2 lon2)).
Proof.
  pose proof (hav_bounds lat1 lon1 lat2 lon2) as Hb.
  unfold distance, haversine_km; unfold hav in *.
  set (a := sin ((radians lat2 - radians lat1) / 2) ^ 2
            + cos (radians lat1) * cos (radians lat2)
              * sin ((radians lon2 - radians lon1) / 2) ^ 2) in *.
  unfold py_sqrt.
  destruct (Rlt_dec a 0); [lra |].
  destruct (Rlt_dec (1 - a) 0); [lra |].
  rewrite atan2_sqrt_asin by lra; reflexivity.
Qed.

Lemma asin_sqrt_range (a : R) : 0 <= a -> 0 <= asin (sqrt a) <= PI / 2.
Proof.
  intros Ha; pose proof PI_RGT_0; pose proof (sqrt_pos a).
  split; [| apply asin_bound].
  unfold asin.
  destruct (Rle_dec (sqrt a) (-1)); [lra |].
  destruct (Rle_dec 1 (sqrt a)); [lra |].
  rewrite <- atan_0.
  destruct (Req_dec (sqrt a) 0) as [E | E].
  - rewrite E; unfold Rdiv; rewrite Rmult_0_l; lra.
  - apply Rlt_le, atan_increasing.
    apply Rdiv_lt_0_compat; [lra |].
    apply sqrt_lt_R0; unfold Rsqr; nra.
Qed.

Lemma haversine_km_range (lat1 lon1 lat2 lon2 : R) :
  0 <= haversine_km lat1 lon1 lat2 lon2 <= PI * 6373.
Proof.
  unfold haversine_km.
  pose proof (asin_sqrt_range (hav lat1 lon1 lat2 lon2)
                (proj1 (hav_bounds lat1 lon1 lat2 lon2))).
  lra.
Qed.

Lemma sin_half_sq_swap (u v : R) :
  sin ((v - u) / 2) ^ 2 = sin ((u - v) / 2) ^ 2.
Proof.
  replace ((u - v) / 2) with (- ((v - u) / 2)) by field.
  rewrite sin_neg; ring.
Qed.

Lemma hav_swap (lat1 lon1 lat2 lon2 : R) :
  hav lat1 lon1 lat2 lon2 = hav lat2 lon2 lat1 lon1.
Proof.
  unfold hav.
  rewrite (sin_half_sq_swap (radians lat1)), (sin_half_sq_swap (radians lon1)).
  ring.
Qed.

Lemma distance_none (lat1 lon1 lat2 lon2 : option R) :
  (lat1 = None \/ lon1 = None \/ lat2 = None \/ lon2 = None) ->
  distance lat1 lon1 lat2 lon2 = Ret (PyInt (-1)).
Proof.
  intros H; destruct lat1, lon1, lat2, lon2; simpl; try reflexivity;
  exfalso; intuition discriminate.
Qed.

End GeoFacts.

(* ------------------------------------------------------------------ *)
(** * Facts on the binary64 [distance] *)
Module GeoFloatFacts.
Import Floats GeoFloat.
Local Open Scope float_scope.

Lemma distance_none_float (sin cos : float -> float) (atan2 pow : float -> float -> float)
    (lat1 lon1 lat2 lon2 : option float) :
  lat1 = None \/ lon1 = None \/ lat2 = None \/ lon2 = None ->
  distance sin cos atan2 pow lat1 lon1 lat2 lon2 = Ret (PyInt (-1)).
Proof.
  intros H; destruct lat1, lon1, lat2, lon2; try reflexivity;
    exfalso; decompose [or] H; discriminate.
Qed.

(** With the correctly rounded [sin], [cos] and [pow] at the arguments it
    reaches, [distance (-82) (-180) 82 0] computes [a = 1.0000000000000002]
    (the exact value is 1), and [sqrt (1 - a)] raises. *)
Lemma antipode_domain_error (sin cos : float -> float) (atan2 pow : float -> float -> float) :
  sin (radians 82) = sin_82 -> sin (radians 90) = 1 ->
  cos (radians (-82)) = cos_82 -> cos (radians 82) = cos_82 ->
  pow sin_82 2 = sin_82 * sin_82 ->
  distance sin cos atan2 pow (Some (-82)) (Some (-180)) (Some 82) (Some 0) = Raise domain_error.
Proof.
  intros H1 H2 H3 H4 H5.
  vm_compute in H1, H2, H3, H4, H5.
  vm_compute. rewrite H1. vm_compute. rewrite H5. vm_compute.
  rewrite H3. vm_compute. rewrite H4. vm_compute. rewrite H2. vm_compute. reflexivity.
Qed.

End GeoFloatFacts.

(* ================================================================== *)
(** * Facts about grouping, sorting and windows *)
Module ListFacts.
Local Open Scope nat_scope.
Import Frames Queries.

Lemma in_skipn {A : Type} (k : nat) (l : list A) (y : A) :
  In y (skipn k l) -> In y l.
Proof.
  intros H; rewrite <- (firstn_skipn k l); apply in_or_app; now right.
Qed.

Lemma in_firstn {A : Type} (k : nat) (l : list A) (y : A) :
  In y (firstn k l) -> In y l.
Proof.
  intros H; rewrite <- (firstn_skipn k l); apply in_or_app; now left.
Qed.

Section Sort.
Context {A : Type} (cnt : A -> nat).

Lemma insert_desc_perm (x : A) (l : list A) :
  Permutation (insert_desc cnt x l) (x :: l).
Proof.
  induction l as [| y l IH]; simpl; [reflexivity |].
  destruct (Nat.leb (cnt y) (cnt x)); [reflexivity |].
  etransitivity; [apply perm_skip, IH | apply perm_swap].
Qed.

Lemma sort_desc_perm (l : list A) : Permutation (sort_desc cnt l) l.
Proof.
  induction l as [| x l IH]; simpl; [reflexivity |].
  etransitivity; [apply insert_desc_perm | apply perm_skip, IH].
Qed.

Lemma insert_desc_sorted (x : A) (l : list A) :
  StronglySorted (fun u v => cnt v <= cnt u) l ->
  StronglySorted (fun u v => cnt v <= cnt u) (insert_desc cnt x l).
Proof.
  induction l as [| y l IH]; simpl; intros Hs.
  - repeat constructor.
  - inversion Hs as [| ? ? Hl Hf]; subst.
    destruct (Nat.leb (cnt y) (cnt x)) eqn:E.
    + apply Nat.leb_le in E.
      constructor; [exact Hs |].
      constructor; [exact E |].
      rewrite Forall_forall in *; intros z Hz; specialize (Hf z Hz); lia.
    + apply Nat.leb_gt in E.
      constructor; [now apply IH |].
      rewrite Forall_forall in *; intros z Hz.
      apply (Permutation_in _ (insert_desc_perm x l)) in Hz.
      destruct Hz as [<- | Hz]; [lia | now apply Hf].
Qed.

Lemma sort_desc_sorted (l : list A) :
  StronglySorted (fun u v => cnt v <= cnt u) (sort_desc cnt l).
Proof.
  induction l as [| x l IH]; simpl; [constructor | now apply insert_desc_sorted].
Qed.

Lemma sorted_firstn_skipn (l : list A) (k : nat) (x y : A) :
  StronglySorted (fun u v => cnt v <= cnt u) l ->
  In x (firstn k l) -> In y (skipn k l) -> cnt y <= cnt x.
Proof.
  revert l; induction k as [| k IH]; intros l Hs Hx Hy; [destruct Hx |].
  destruct l as [| a l]; [destruct Hx |].
  inversion Hs as [| ? ? Hl Hf]; subst.
  destruct Hx as [<- | Hx].
  - rewrite Forall_forall in Hf; apply Hf.
    apply (in_skipn k); exact Hy.
  - eapply IH; eauto.
Qed.

(** The elements a window keeps are at least as large as any it drops. *)
Lemma sort_firstn_dominates (l : list A) (k : nat) (x y : A) :
  In x (firstn k (sort_desc cnt l)) -> In y (skipn k (sort_desc cnt l)) ->
  cnt y <= cnt x.
Proof. apply sorted_firstn_skipn, sort_desc_sorted. Qed.

End Sort.

Lemma decb_true {K : Type} (dec : forall x y : K, {x = y} + {x <> y}) (x y : K) :
  decb dec x y = true <-> x = y.
Proof. unfold decb; destruct (dec x y); split; congruence. Qed.

Lemma decb_refl {K : Type} (dec : forall x y : K, {x = y} + {x <> y}) (x : K) :
  decb dec x x = true.
Proof. now apply decb_true. Qed.

Lemma in_group_by {K : Type} (dec : forall x y : K, {x = y} + {x <> y})
    (key : row -> K) (rs : list row) (k : K) (g : list row) :
  In (k, g) (group_by dec key rs) <->
  In k (map key rs) /\ g = filter (fun r => decb dec (key r) k) rs.
Proof.
  unfold group_by; rewrite in_map_iff; split.
  - intros [k' [E Hin]]; inversion E; subst.
    split; [now apply nodup_In in Hin | reflexivity].
  - intros [Hk ->]; exists k; split; [reflexivity | now apply nodup_In].
Qed.

Lemma group_by_keys {K : Type} (dec : forall x y : K, {x = y} + {x <> y})
    (key : row -> K) (rs : list row) :
  map fst (group_by dec key rs) = nodup dec (map key rs).
Proof. unfold group_by; rewrite map_map; apply map_id. Qed.

Lemma filter_flat_map {B C : Type} (f : C -> bool) (g : B -> list C) (l : list B) :
  filter f (flat_map g l) = flat_map (fun y => filter f (g y)) l.
Proof. induction l as [| y l IH]; simpl; [reflexivity |]; now rewrite filter_app, IH. Qed.

Lemma filter_all_true {B : Type} (f : B -> bool) (l : list B) :
  (forall x, In x l -> f x = true) -> filter f l = l.
Proof.
  induction l as [| x l IH]; intros H; simpl; [reflexivity |].
  rewrite (H x (or_introl eq_refl)), IH; [reflexivity |].
  intros y Hy; apply H; now right.
Qed.

Lemma filter_all_false {B : Type} (f : B -> bool) (l : list B) :
  (forall x, In x l -> f x = false) -> filter f l = [].
Proof.
  induction l as [| x l IH]; intros H; simpl; [reflexivity |].
  rewrite (H x (or_introl eq_refl)), IH; [reflexivity |].
  intros y Hy; apply H; now right.
Qed.

Lemma flat_map_nil {P B : Type} (p : P) (h : P -> list B) (l : list P) :
  ~ In p l -> (forall q, q <> p -> h q = []) -> flat_map h l = [].
Proof.
  induction l as [| q l IH]; intros Hin Hh; simpl; [reflexivity |].
  rewrite Hh by (intros ->; apply Hin; now left).
  apply IH; [intros H; apply Hin; now right | exact Hh].
Qed.

Lemma flat_map_single {P B : Type} (p : P) (h : P -> list B) (l : list P) :
  NoDup l -> In p l -> (forall q, q <> p -> h q = []) -> flat_map h l = h p.
Proof.
  induction l as [| q l IH]; intros Hn Hin Hh; [destruct Hin |].
  inversion Hn as [| ? ? Hq Hl]; subst; simpl.
  destruct Hin as [-> | Hin].
  - rewrite (flat_map_nil p h l Hq Hh), app_nil_r; reflexivity.
  - assert (q <> p) by (intros ->; contradiction).
    rewrite Hh by assumption; simpl; now apply IH.
Qed.

Lemma in_row_number_le {A P : Type} (dec : forall x y : P, {x = y} + {x <> y})
    (part : A -> P) (cnt : A -> nat) (n : nat) (xs : list A) (x : A) :
  In x (row_number_le dec part cnt n xs) -> In x xs.
Proof.
  unfold row_number_le; rewrite in_flat_map; intros [p [_ Hx]].
  apply in_firstn, (Permutation_in _ (sort_desc_perm cnt _)), filter_In in Hx.
  tauto.
Qed.

(** A window keeps, in each partition, the first [n] rows in the order. *)
Lemma row_number_le_part {A P : Type} (dec : forall x y : P, {x = y} + {x <> y})
    (part : A -> P) (cnt : A -> nat) (n : nat) (xs : list A) (p : P) :
  In p (map part xs) ->
  filter (fun x => decb dec (part x) p) (row_number_le dec part cnt n xs)
  = firstn n (sort_desc cnt (filter (fun x => decb dec (part x) p) xs)).
Proof.
  intros Hp; unfold row_number_le; rewrite filter_flat_map.
  assert (Hpart : forall q x, In x (firstn n (sort_desc cnt
                     (filter (fun x => decb dec (part x) q) xs))) -> part x = q).
  { intros q x Hx.
    apply in_firstn, (Permutation_in _ (sort_desc_perm cnt _)), filter_In in Hx.
    now apply (decb_true dec), Hx. }
  rewrite (flat_map_single p); [| apply NoDup_nodup | now apply nodup_In |].
  - apply filter_all_true; intros x Hx; apply decb_true; eapply Hpart; eauto.
  - intros q Hq; apply filter_all_false; intros x Hx.
    destruct (decb dec (part x) p) eqn:E; [| reflexivity].
    apply decb_true in E; apply Hpart in Hx; congruence.
Qed.

End ListFacts.

(* ================================================================== *)
(** * Facts about the DataFrame operators and the queries *)
Module FrameFacts.
Import Frames Queries SpecDefs ListFacts.
Local Open Scope string_scope.
Local Open Scope list_scope.
Local Open Scope nat_scope.

Lemma filter_filter_and {B : Type} (f g : B -> bool) (l : list B) :
  filter g (filter f l) = filter (fun x => f x && g x) l.
Proof.
  induction l as [| x l IH]; simpl; [reflexivity |].
  destruct (f x); simpl; [destruct (g x); simpl; now rewrite IH | exact IH].
Qed.

Lemma clean_condition (v : value) :
  holds (sql_not (sql_isin v placeholders)) = usable_code v.
Proof.
  destruct v as [| s | z | q | b]; try reflexivity.
  unfold sql_isin, placeholders; simpl.
  destruct (String.eqb s "NaN"), (String.eqb s "N/A"); reflexivity.
Qed.

Lemma positive_distance_iff (r : row) :
  positive_distance r = true <->
  exists q, num (col r "distance") = Some q /\ (0 < q)%Q.
Proof.
  unfold positive_distance, sql_gt; simpl.
  destruct (num (col r "distance")) as [q |]; simpl.
  - destruct (Qle_bool q 0) eqn:E; simpl; split.
    + discriminate.
    + intros [q' [Hq Hlt]]; inversion Hq; subst.
      apply Qle_bool_iff in E; apply Qlt_not_le in Hlt; contradiction.
    + intros _; exists q; split; [reflexivity |].
      apply Qnot_le_lt; intros Hle; apply Qle_bool_iff in Hle; congruence.
    + reflexivity.
  - split; [discriminate | intros [q' [Hq _]]; discriminate].
Qed.

Lemma in_q4_agg (df : frame) (k m : value) :
  In (k, m) (q4_agg df) <->
  In k (map (fun r => col r "origin_airport_continent") (filter positive_distance (rows df)))
  /\ m = sql_avg (map (fun r => col r "distance")
                      (filter (fun r => positive_distance r
                                        && decb value_eq_dec (col r "origin_airport_continent") k)
                              (rows df))).
Proof.
  unfold q4_agg; rewrite in_map_iff; split.
  - intros [[k' g] [E Hin]]; simpl in E; inversion E; subst.
    apply in_group_by in Hin; destruct Hin as [Hk ->].
    split; [exact Hk | now rewrite filter_filter_and].
  - intros [Hk ->]; exists (k, filter (fun r => decb value_eq_dec (col r "origin_airport_continent") k)
                                     (filter positive_distance (rows df))).
    split; [simpl; now rewrite filter_filter_and |].
    apply in_group_by; split; [exact Hk | reflexivity].
Qed.

Lemma nums_length (g : list row) :
  (forall r, In r g -> positive_distance r = true) ->
  length (nums (map (fun r => col r "distance") g)) = length g.
Proof.
  induction g as [| r g IH]; intros H; simpl; [reflexivity |].
  destruct (proj1 (positive_distance_iff r) (H r (or_introl eq_refl))) as [q [Hq _]].
  rewrite Hq; simpl; f_equal; apply IH; intros r' Hr'; apply H; now right.
Qed.

Lemma q4_group_mean (df : frame) :
  forall k m, In (k, m) (q4_agg df) ->
    let g := filter (fun r => positive_distance r
                              && decb value_eq_dec (col r "origin_airport_continent") k)
                    (rows df) in
    g <> []
    /\ length (nums (map (fun r => col r "distance") g)) = length g
    /\ m = VFloat (mean_Q (nums (map (fun r => col r "distance") g))).
Proof.
  intros k m Hin g.
  apply in_q4_agg in Hin; destruct Hin as [Hk Hm].
  assert (Hpos : forall r, In r g -> positive_distance r = true).
  { intros r Hr; apply filter_In in Hr; destruct Hr as [_ Hr].
    apply andb_prop in Hr; tauto. }
  assert (Hne : g <> []).
  { apply in_map_iff in Hk; destruct Hk as [r [Hrk Hr]].
    apply filter_In in Hr; destruct Hr as [Hr Hp].
    intros Hg; assert (Hrg : In r g); [| rewrite Hg in Hrg; contradiction].
    apply filter_In; split; [exact Hr |].
    rewrite Hp; simpl; apply decb_true; exact Hrk. }
  split; [exact Hne |].
  split; [now apply nums_length |].
  rewrite Hm; fold g; unfold sql_avg, mean_Q.
  destruct (nums (map (fun r => col r "distance") g)) eqn:E.
  - exfalso; apply Hne; apply length_zero_iff_nil.
    rewrite <- (nums_length g Hpos), E; reflexivity.
  - reflexivity.
Qed.

(** ** Q6 *)

Lemma decb_pair {A B : Type} (da : forall x y : A, {x = y} + {x <> y})
    (db : forall x y : B, {x = y} + {x <> y}) (x1 y1 : A) (x2 y2 : B) :
  decb (pair_dec da db) (x1, x2) (y1, y2) = decb da x1 y1 && decb db x2 y2.
Proof.
  unfold decb.
  destruct (pair_dec da db (x1, x2) (y1, y2)) as [E | E];
    destruct (da x1 y1); destruct (db x2 y2); simpl; try reflexivity;
    exfalso; congruence.
Qed.

Lemma NoDup_map_filter {B C : Type} (f : B -> C) (p : B -> bool) (l : list B) :
  NoDup (map f l) -> NoDup (map f (filter p l)).
Proof.
  induction l as [| x l IH]; intros H; simpl; [constructor |].
  inversion H as [| ? ? Hx Hl]; subst.
  destruct (p x); simpl; [| now apply IH].
  constructor; [| now apply IH].
  intros Hin; apply Hx; apply in_map_iff in Hin; destruct Hin as [y [<- Hy]].
  apply in_map, (proj1 (filter_In p y l) Hy).
Qed.

Lemma NoDup_map_change {B C D : Type} (f : B -> C) (g : B -> D) (l : list B) :
  NoDup (map f l) -> (forall x y, In x l -> In y l -> g x = g y -> f x = f y) ->
  NoDup (map g l).
Proof.
  induction l as [| x l IH]; intros H Hfg; simpl; [constructor |].
  inversion H as [| ? ? Hx Hl]; subst; constructor.
  - intros Hin; apply Hx; apply in_map_iff in Hin; destruct Hin as [y [Hy Hiny]].
    rewrite (Hfg x y (or_introl eq_refl) (or_intror Hiny) (eq_sym Hy)).
    now apply in_map.
  - apply IH; [exact Hl | intros; apply Hfg; auto; now right].
Qed.

Lemma NoDup_firstn_map {B C : Type} (f : B -> C) (k : nat) (l : list B) :
  NoDup (map f l) -> NoDup (map f (firstn k l)).
Proof.
  intros H; rewrite <- firstn_map.
  rewrite <- (firstn_skipn k (map f l)) in H.
  now apply NoDup_app_remove_r in H.
Qed.

Lemma in_q6_filtered (df : frame) (t : value * value * nat) :
  In t (q6_filtered df) <->
  fst (fst t) <> VNull /\ snd (fst t) <> VNull
  /\ In (fst t) (map (fun r => (col r "airline_name", col r "aircraft_name")) (rows df))
  /\ snd t = count_nonnull "airline_name"
               (filter (fun r => decb (pair_dec value_eq_dec value_eq_dec)
                                   (col r "airline_name", col r "aircraft_name") (fst t))
                       (rows df)).
Proof.
  destruct t as [[an ac] n]; unfold q6_filtered; simpl.
  rewrite !filter_In; simpl.
  split.
  - intros [[Hin Hn1] Hn2].
    apply (Permutation_in _ (sort_desc_perm _ _)) in Hin.
    unfold q6_counts in Hin; apply in_map_iff in Hin.
    destruct Hin as [[k g] [E Hin]]; simpl in E; inversion E; subst.
    apply in_group_by in Hin; destruct Hin as [Hk ->].
    split; [destruct an; simpl in *; congruence |].
    split; [destruct ac; simpl in *; congruence |].
    split; [exact Hk | reflexivity].
  - intros [Hn1 [Hn2 [Hk Hn]]].
    split; [split |].
    + apply (Permutation_in _ (Permutation_sym (sort_desc_perm _ _))).
      unfold q6_counts; apply in_map_iff.
      exists ((an, ac), filter (fun r => decb (pair_dec value_eq_dec value_eq_dec)
                             (col r "airline_name", col r "aircraft_name") (an, ac)) (rows df)).
      split; [simpl; now rewrite Hn |].
      apply in_group_by; split; [exact Hk | reflexivity].
    + destruct an; simpl; congruence.
    + destruct ac; simpl; congruence.
Qed.

Lemma NoDup_q6_filtered (df : frame) : NoDup (map fst (q6_filtered df)).
Proof.
  unfold q6_filtered; apply NoDup_map_filter, NoDup_map_filter.
  apply (Permutation_NoDup (Permutation_map _ (Permutation_sym (sort_desc_perm _ _)))).
  unfold q6_counts; rewrite map_map; cbn [fst].
  rewrite (group_by_keys (pair_dec value_eq_dec value_eq_dec)).
  apply NoDup_nodup.
Qed.

Lemma q6_count_is_pair_count (df : frame) (s : string) (ac : value) :
  count_nonnull "airline_name"
    (filter (fun r => decb (pair_dec value_eq_dec value_eq_dec)
                        (col r "airline_name", col r "aircraft_name") (VStr s, ac)) (rows df))
  = pair_count df (VStr s) ac.
Proof.
  unfold count_nonnull, pair_count.
  rewrite filter_filter_and; f_equal; apply filter_ext; intros r.
  rewrite decb_pair; unfold value_eqb, decb.
  destruct (value_eq_dec (col r "airline_name") (VStr s)) as [E | E];
    destruct (value_eq_dec (col r "aircraft_name") ac); simpl; try rewrite E; reflexivity.
Qed.

Lemma pair_count_pos (df : frame) (an ac : value) :
  0 < pair_count df an ac ->
  In (an, ac) (map (fun r => (col r "airline_name", col r "aircraft_name")) (rows df)).
Proof.
  unfold pair_count; intros H.
  destruct (filter _ (rows df)) as [| r l] eqn:E; [simpl in H; lia |].
  assert (Hr : In r (filter (fun r => value_eqb (col r "airline_name") an
                                     && value_eqb (col r "aircraft_name") ac) (rows df)))
    by (rewrite E; now left).
  apply filter_In in Hr; destruct Hr as [Hr Hp]; apply andb_prop in Hp.
  unfold value_eqb in Hp.
  destruct (value_eq_dec (col r "airline_name") an) as [<- |]; [| now destruct Hp].
  destruct (value_eq_dec (col r "aircraft_name") ac) as [<- |]; [| now destruct Hp].
  apply (in_map (fun r => (col r "airline_name", col r "aircraft_name"))); exact Hr.
Qed.

(** ** Q2 *)


Lemma sql_eq_str (v : value) (s : string) :
  holds (sql_eq v (VStr s)) = true -> v = VStr s.
Proof.
  destruct v as [| a | z | q | b]; simpl; try discriminate.
  destruct (String.eqb a s) eqn:E; [| discriminate].
  apply String.eqb_eq in E; now subst.
Qed.

Lemma q2_count_is_regional_count (active : frame) (s : string) (an : value) :
  count_nonnull "airline_name"
    (filter (fun r => decb key3_dec (key3 r) (VStr s, VStr s, an)) (rows active))
  = regional_count active s an.
Proof.
  unfold regional_count; f_equal; apply filter_ext; intros r.
  unfold key3, key3_dec; rewrite !decb_pair; reflexivity.
Qed.

Lemma regional_count_pos (active : frame) (s : string) (an : value) :
  0 < regional_count active s an -> In (VStr s, VStr s, an) (map key3 (rows active)).
Proof.
  unfold regional_count, count_nonnull; intros H.
  destruct (filter _ (filter _ (rows active))) as [| r l] eqn:E; [simpl in H; lia |].
  assert (Hr : In r (filter (fun r => negb (is_null (col r "airline_name")))
                      (filter (fun r => value_eqb (col r "origin_airport_continent") (VStr s)
                        && value_eqb (col r "destination_airport_continent") (VStr s)
                        && value_eqb (col r "airline_name") an) (rows active))))
    by (rewrite E; now left).
  apply filter_In in Hr; destruct Hr as [Hr _].
  apply filter_In in Hr; destruct Hr as [Hr Hp].
  unfold value_eqb in Hp.
  destruct (value_eq_dec (col r "origin_airport_continent") (VStr s)) as [E1 |]; [| discriminate].
  destruct (value_eq_dec (col r "destination_airport_continent") (VStr s)) as [E2 |]; [| discriminate].
  destruct (value_eq_dec (col r "airline_name") an) as [E3 |]; [| discriminate].
  replace (VStr s, VStr s, an) with (key3 r) by (unfold key3; congruence).
  now apply in_map.
Qed.

Lemma in_q2_regional (active : frame) (s : string) (an : value) (n : nat) :
  In (VStr s, an, n) (q2_regional active) <->
  In (VStr s, VStr s, an) (map key3 (rows active)) /\ n = regional_count active s an.
Proof.
  unfold q2_regional; rewrite in_map_iff; split.
  - intros [[[[oc dc] an'] n'] [E Hin]]; cbn in E; inversion E; subst dc an' n'.
    apply filter_In in Hin; destruct Hin as [Hin Hc]; cbn in Hc.
    apply sql_eq_str in Hc; subst oc.
    apply (Permutation_in _ (sort_desc_perm _ _)) in Hin.
    unfold q2_counts in Hin; apply in_map_iff in Hin.
    destruct Hin as [[k g] [E' Hin]]; cbn in E'; inversion E'; subst k.
    apply in_group_by in Hin; destruct Hin as [Hk ->].
    split; [exact Hk | apply q2_count_is_regional_count].
  - intros [Hk ->].
    exists (VStr s, VStr s, an, regional_count active s an); split; [reflexivity |].
    apply filter_In; split; [| cbn; now rewrite String.eqb_refl].
    apply (Permutation_in _ (Permutation_sym (sort_desc_perm _ _))).
    unfold q2_counts; apply in_map_iff.
    exists ((VStr s, VStr s, an),
            filter (fun r => decb key3_dec (key3 r) (VStr s, VStr s, an)) (rows active)).
    split; [cbn [fst snd]; f_equal; apply q2_count_is_regional_count |].
    apply in_group_by; split; [exact Hk | reflexivity].
Qed.

Lemma in_q2_regional_part (active : frame) (s : string) :
  In (VStr s) (map (fun t => fst (fst t)) (q2_regional active)) <->
  exists an, In (VStr s, VStr s, an) (map key3 (rows active)).
Proof.
  rewrite in_map_iff; split.
  - intros [[[k an] n] [E Hin]]; cbn in E; subst k.
    apply in_q2_regional in Hin; exists an; tauto.
  - intros [an Hk]; exists (VStr s, an, regional_count active s an); split; [reflexivity |].
    apply in_q2_regional; tauto.
Qed.

Lemma key3_regional (active : frame) (s : string) :
  (exists an, In (VStr s, VStr s, an) (map key3 (rows active))) <->
  exists r, In r (rows active) /\ col r "origin_airport_continent" = VStr s
            /\ col r "destination_airport_continent" = VStr s.
Proof.
  split.
  - intros [an Hk]; apply in_map_iff in Hk; destruct Hk as [r [E Hr]].
    unfold key3 in E; injection E as E1 E2 E3; exists r; split; [exact Hr | split; assumption].
  - intros [r [Hr [E1 E2]]]; exists (col r "airline_name").
    replace (VStr s, VStr s, col r "airline_name") with (key3 r) by (unfold key3; congruence).
    now apply in_map.
Qed.

Lemma continent_names_known (s : string) :
  In s (map snd df_continent) ->
  exists nm, In (nm, s) df_continent /\ continent_names (VStr s) = [VStr nm].
Proof.
  cbn [map snd df_continent In].
  intros [<- | [<- | [<- | [<- | [<- | [<- | []]]]]]];
    eexists; (split; [cbn; tauto | reflexivity]).
Qed.

Lemma continent_names_unknown (s : string) :
  ~ In s (map snd df_continent) -> continent_names (VStr s) = [VNull].
Proof.
  intros Hs; unfold continent_names.
  rewrite filter_all_false; [reflexivity |].
  intros [nm c] Hin; cbn [fst snd].
  destruct (holds (sql_eq (VStr s) (VStr c))) eqn:E; [| reflexivity].
  apply sql_eq_str in E; injection E as ->.
  exfalso; apply Hs, (in_map snd _ _ Hin).
Qed.

Lemma q2_regional_part_str (active : frame) (t : value * value * nat) :
  In t (q2_regional active) -> fst (fst t) <> VNull.
Proof.
  unfold q2_regional; rewrite in_map_iff.
  intros [[[[oc dc] an] n] [<- Hin]]; apply filter_In in Hin; destruct Hin as [_ Hc].
  cbn [fst]; intros ->; destruct oc; discriminate.
Qed.

(** ** Q3 *)

Lemma sql_max_spec (vs : list value) :
  ((forall v, In v vs -> num v = None) /\ sql_max vs = VNull)
  \/ (exists q, num (sql_max vs) = Some q /\ In (sql_max vs) vs
               /\ forall v q', In v vs -> num v = Some q' -> (q' <= q)%Q).
Proof.
  induction vs as [| v vs IH].
  - left; split; [intros v [] | reflexivity].
  - cbn [sql_max fold_right]; fold (sql_max vs).
    destruct (num v) as [x |] eqn:Hv.
    + right.
      destruct IH as [[Hn Hm] | [y [Hy [Hin Hmax]]]].
      * rewrite Hm; cbn [num]; exists x; split; [exact Hv |]; split; [now left |].
        intros w q' [<- | Hw] Hq'; [rewrite Hv in Hq'; injection Hq' as <-; apply Qle_refl |].
        rewrite Hn in Hq' by exact Hw; discriminate.
      * rewrite Hy; destruct (Qle_bool y x) eqn:E.
        -- apply Qle_bool_iff in E.
           exists x; split; [exact Hv |]; split; [now left |].
           intros w q' [<- | Hw] Hq'; [rewrite Hv in Hq'; injection Hq' as <-; apply Qle_refl |].
           apply (Qle_trans _ y); [exact (Hmax w q' Hw Hq') | exact E].
        -- assert (Hxy : (x <= y)%Q).
           { apply Qlt_le_weak, Qnot_le_lt; intros H; apply Qle_bool_iff in H; congruence. }
           exists y; split; [exact Hy |]; split; [now right |].
           intros w q' [<- | Hw] Hq'; [rewrite Hv in Hq'; injection Hq' as <-; exact Hxy |].
           exact (Hmax w q' Hw Hq').
    + destruct IH as [[Hn Hm] | [y [Hy [Hin Hmax]]]].
      * left; split; [| exact Hm].
        intros w [<- | Hw]; [exact Hv | now apply Hn].
      * right; exists y; split; [exact Hy |]; split; [now right |].
        intros w q' [<- | Hw] Hq'; [congruence | exact (Hmax w q' Hw Hq')].
Qed.

Lemma sql_eq_null (v : value) : sql_eq v VNull = None.
Proof. destruct v; reflexivity. Qed.

Lemma holds_some (b : bool) : holds (Some b) = b.
Proof. now destruct b. Qed.

Lemma sql_eq_num (v m : value) (y : Q) :
  num m = Some y ->
  holds (sql_eq v m) = true <-> exists x, num v = Some x /\ (x == y)%Q.
Proof.
  intros Hm.
  destruct m as [| a | z | q | b]; cbn in Hm; try discriminate; injection Hm as <-.
  all: destruct v as [| a' | z' | q' | b']; cbn [sql_eq num]; rewrite ?holds_some; cbn [holds]; split.
  all: first
    [ intros H; discriminate H
    | intros [x [Hx _]]; discriminate Hx
    | intros H; eexists; split; [reflexivity | apply Qeq_bool_iff; exact H]
    | intros [x [Hx Hq]]; injection Hx as <-; apply Qeq_bool_iff; exact Hq ].
Qed.

(** ** QB *)

Lemma max_Z_spec (zs : list Z) :
  (zs = [] /\ max_Z zs = None)
  \/ (exists m, max_Z zs = Some m /\ In m zs /\ forall z, In z zs -> (z <= m)%Z).
Proof.
  induction zs as [| z zs IH]; [now left |].
  right; cbn [max_Z fold_right]; fold (max_Z zs).
  destruct IH as [[-> ->] | [m [-> [Hin Hmax]]]].
  - exists z; split; [reflexivity |]; split; [now left |].
    intros w [<- | []]; lia.
  - exists (Z.max z m); split; [reflexivity |]; split.
    + destruct (Z.max_spec z m) as [[_ ->] | [_ ->]]; [now right | now left].
    + intros w [<- | Hw]; [lia |]; specialize (Hmax w Hw); lia.
Qed.

Lemma in_qb_group (df : frame) (c : string) (k : value) (n : nat) :
  In (k, n) (filter (fun kn => negb (is_null (fst kn)))
               (map (fun kr => (fst kr, count_nonnull "id" (snd kr)))
                    (group_by value_eq_dec (fun r => col r c) (rows df))))
  <-> k <> VNull /\ In k (map (fun r => col r c) (rows df))
      /\ n = count_nonnull "id" (filter (fun r => value_eqb (col r c) k) (rows df)).
Proof.
  rewrite filter_In, in_map_iff; cbn [fst].
  assert (Hk : negb (is_null k) = true <-> k <> VNull) by (destruct k; cbn; intuition congruence).
  rewrite Hk; split.
  - intros [[[k' g] [E Hg]] Hnn]; injection E as -> <-.
    apply in_group_by in Hg; destruct Hg as [Hin ->]; tauto.
  - intros [Hnn [Hin ->]]; split; [| exact Hnn].
    exists (k, filter (fun r => decb value_eq_dec (col r c) k) (rows df)); split; [reflexivity |].
    apply in_group_by; tauto.
Qed.

Lemma in_qb_diffs (df : frame) (s : string) (d : Z) :
  In (VStr s, d) (qb_diffs df) <->
  In (VStr s) (map (fun r => col r "origin_airport_iata") (rows df))
  /\ In (VStr s) (map (fun r => col r "destination_airport_iata") (rows df))
  /\ d = Z.abs (Z.of_nat (departures df s) - Z.of_nat (arrivals df s)).
Proof.
  unfold qb_diffs; rewrite in_flat_map; split.
  - intros [[ko no] [Ho Hin]]; apply in_map_iff in Hin.
    destruct Hin as [[kd nd] [E Hd]]; apply filter_In in Hd; destruct Hd as [Hd Heq].
    cbn [fst snd] in *; injection E as -> <-.
    apply sql_eq_str in Heq; subst ko.
    apply in_qb_group in Ho; apply in_qb_group in Hd.
    destruct Ho as [_ [Ho ->]], Hd as [_ [Hd ->]]; tauto.
  - intros [Ho [Hd ->]].
    exists (VStr s, departures df s); split.
    { apply in_qb_group; split; [discriminate |]; split; [exact Ho | reflexivity]. }
    apply in_map_iff; exists (VStr s, arrivals df s); split; [reflexivity |].
    apply filter_In; split; [| cbn; now rewrite String.eqb_refl].
    apply in_qb_group; split; [discriminate |]; split; [exact Hd | reflexivity].
Qed.

Lemma in_qb (df : frame) (t : value * Z) :
  In t (qb df) <-> In t (qb_diffs df) /\ forall u, In u (qb_diffs df) -> (snd u <= snd t)%Z.
Proof.
  unfold qb; cbv zeta; rewrite filter_In.
  destruct (max_Z_spec (map snd (qb_diffs df))) as [[E ->] | [m [-> [Hin Hmax]]]].
  - apply map_eq_nil in E; rewrite E; cbn; tauto.
  - rewrite holds_some, Z.eqb_eq; split.
    + intros [Ht ->]; split; [exact Ht |].
      intros u Hu; apply Hmax, in_map, Hu.
    + intros [Ht Hge]; split; [exact Ht |].
      apply in_map_iff in Hin; destruct Hin as [u [<- Hu]].
      specialize (Hge u Hu); specialize (Hmax (snd t) (in_map snd _ _ Ht)); lia.
Qed.

Lemma qb_nonempty (df : frame) : qb df <> [] <-> qb_diffs df <> [].
Proof.
  split.
  - intros H E; apply H; unfold qb; cbv zeta; rewrite E; reflexivity.
  - intros H E.
    destruct (max_Z_spec (map snd (qb_diffs df))) as [[Es _] | [m [Hm [Hin Hmax]]]].
    + apply map_eq_nil in Es; contradiction.
    + apply in_map_iff in Hin; destruct Hin as [u [Hu Hin]].
      assert (Hq : In u (qb df)).
      { apply in_qb; split; [exact Hin |]; intros w Hw; rewrite Hu; apply Hmax, in_map, Hw. }
      rewrite E in Hq; destruct Hq.
Qed.

(** ** The join stages *)

Lemma row_lookup_app_some (a b : row) (c : string) (v : value) :
  row_lookup a c = Some v -> row_lookup (a ++ b) c = Some v.
Proof.
  induction a as [| [n w] a IH]; cbn; [discriminate |].
  destruct (String.eqb n c); [trivial | exact IH].
Qed.

Lemma row_lookup_app_none (a b : row) (c : string) :
  row_lookup a c = None -> row_lookup (a ++ b) c = row_lookup b c.
Proof.
  induction a as [| [n w] a IH]; cbn; [trivial |].
  destruct (String.eqb n c); [discriminate | exact IH].
Qed.

Lemma row_lookup_drop (cs : list string) (r : row) (c : string) :
  keep_col cs c = true -> row_lookup (drop_row cs r) c = row_lookup r c.
Proof.
  intros Hk; induction r as [| [n w] r IH]; cbn; [reflexivity |].
  destruct (String.eqb n c) eqn:E.
  - apply String.eqb_eq in E; subst n; rewrite Hk; cbn; now rewrite String.eqb_refl.
  - destruct (keep_col cs n); cbn; [rewrite E |]; exact IH.
Qed.

Lemma row_lookup_drop_none (cs : list string) (r : row) (c : string) :
  keep_col cs c = false -> row_lookup (drop_row cs r) c = None.
Proof.
  intros Hk; induction r as [| [n w] r IH]; cbn; [reflexivity |].
  destruct (keep_col cs n) eqn:Kn; cbn; [| exact IH].
  destruct (String.eqb n c) eqn:E; [| exact IH].
  apply String.eqb_eq in E; subst n; congruence.
Qed.

Lemma row_lookup_null_row (cs : list string) (c : string) :
  In c cs -> row_lookup (null_row cs) c = Some VNull.
Proof.
  induction cs as [| c' cs IH]; cbn; [intros [] |].
  intros Hc; destruct (String.eqb c' c) eqn:E; [reflexivity |].
  apply IH; destruct Hc as [-> | Hc]; [now rewrite String.eqb_refl in E | exact Hc].
Qed.

Lemma keep_col_single (k c : string) : keep_col [k] c = negb (String.eqb c k).
Proof. unfold keep_col; cbn; now rewrite orb_false_r. Qed.

Lemma left_join_row_stage (on : row -> row -> option bool) (out : row -> row -> row)
    (rr : list row) (nulls : row) (keep : row -> row -> Prop) :
  (forall a b, keep a (out a b)) ->
  left_join_stage (left_join_row on out rr nulls) (matches_on on rr) keep
                  (fun a => out a nulls).
Proof.
  intros Hk a; unfold left_join_row, matches_on.
  destruct (filter (fun b => holds (on a b)) rr) as [| b ms]; cbn [length].
  - split; [reflexivity |]; split; [repeat constructor; apply Hk | reflexivity].
  - split; [rewrite length_map; cbn [length]; lia |]; split; [| discriminate].
    apply Forall_map, Forall_forall; intros x _; apply Hk.
Qed.

Lemma left_join_stage_map (f : row -> list row) (m : row -> nat)
    (keep keep' : row -> row -> Prop) (pad : row -> row) (g : row -> row) :
  left_join_stage f m keep pad -> (forall a r, keep a r -> keep' a (g r)) ->
  left_join_stage (fun a => map g (f a)) m keep' (fun a => g (pad a)).
Proof.
  intros Hs Hg a; destruct (Hs a) as [Hl [Hf Hp]].
  split; [now rewrite length_map |]; split.
  - apply Forall_map; eapply Forall_impl; [| exact Hf]; intros r; apply Hg.
  - intros H0; now rewrite (Hp H0).
Qed.

Lemma map_flat_map_comm {B C D : Type} (g : C -> D) (f : B -> list C) (l : list B) :
  map g (flat_map f l) = flat_map (fun x => map g (f x)) l.
Proof. induction l as [| x l IH]; cbn; [reflexivity |]; now rewrite map_app, IH. Qed.

Lemma stage_length (f : row -> list row) (m : row -> nat) (keep : row -> row -> Prop)
    (pad : row -> row) (l : list row) :
  left_join_stage f m keep pad -> (forall a, In a l -> m a <= 1) ->
  length (flat_map f l) = length l.
Proof.
  intros Hs; induction l as [| a l IH]; intros Hm; cbn; [reflexivity |].
  rewrite length_app, IH by (intros x Hx; apply Hm; now right).
  destruct (Hs a) as [Hl _]; rewrite Hl.
  specialize (Hm a (or_introl eq_refl)); lia.
Qed.

Lemma using_out_preserves (key : string) (a b : row) : preserves a (using_out key a b).
Proof.
  intros c v Hc; unfold using_out; cbn [row_lookup].
  destruct (String.eqb key c) eqn:E.
  - apply String.eqb_eq in E; subst c; unfold col; now rewrite Hc.
  - apply row_lookup_app_some; rewrite row_lookup_drop; [exact Hc |].
    rewrite keep_col_single, String.eqb_sym, E; reflexivity.
Qed.

Lemma using_out_new_null (key : string) (cs : list string) :
  new_cols_null cs (fun a => using_out key a (null_row cs)).
Proof.
  intros a c Hc Ha; unfold using_out, col; cbn [row_lookup].
  destruct (String.eqb key c) eqn:E.
  - apply String.eqb_eq in E; subst c; now rewrite Ha.
  - assert (Hk : keep_col [key] c = true)
      by (rewrite keep_col_single, String.eqb_sym, E; reflexivity).
    rewrite row_lookup_app_none by (rewrite row_lookup_drop by exact Hk; exact Ha).
    rewrite row_lookup_drop by exact Hk; now rewrite row_lookup_null_row.
Qed.

Lemma app_preserves (a b : row) : preserves a (a ++ b).
Proof. intros c v; apply row_lookup_app_some. Qed.

Lemma app_new_null (cs : list string) : new_cols_null cs (fun a => a ++ null_row cs).
Proof.
  intros a c Hc Ha; unfold col.
  rewrite row_lookup_app_none by exact Ha; now rewrite row_lookup_null_row.
Qed.

Lemma airline_drops_keep (a b : row) :
  preserves_except ["airline_icao"; "airline_iata"] a (airline_drops (a ++ b))
  /\ row_lookup (airline_drops (a ++ b)) "airline_iata" = None
  /\ row_lookup (airline_drops (a ++ b)) "airline_icao" = None.
Proof.
  unfold airline_drops; split; [| split].
  - intros c v Hk Hc; unfold keep_col in Hk; cbn in Hk.
    destruct (String.eqb c "airline_icao") eqn:E1; [discriminate |].
    destruct (String.eqb c "airline_iata") eqn:E2; [discriminate |].
    rewrite !row_lookup_drop by (rewrite keep_col_single; now rewrite ?E1, ?E2).
    now apply row_lookup_app_some.
  - apply row_lookup_drop_none; reflexivity.
  - destruct (keep_col ["airline_iata"] "airline_icao") eqn:E.
    + rewrite row_lookup_drop by exact E; apply row_lookup_drop_none; reflexivity.
    + now apply row_lookup_drop_none.
Qed.

Lemma airline_drops_new_null (cs : list string) :
  new_cols_null cs (fun a => airline_drops (a ++ null_row cs)).
Proof.
  intros a c Hc Ha; unfold airline_drops, col.
  destruct (keep_col ["airline_iata"] c) eqn:E1; [| now rewrite row_lookup_drop_none].
  rewrite row_lookup_drop by exact E1.
  destruct (keep_col ["airline_icao"] c) eqn:E2; [| now rewrite row_lookup_drop_none].
  rewrite row_lookup_drop by exact E2.
  rewrite row_lookup_app_none by exact Ha; now rewrite row_lookup_null_row.
Qed.

End FrameFacts.

(* ================================================================== *)
(** * The claims *)
Module Claims.
Import Frames Queries SpecDefs ListFacts FrameFacts.
Local Open Scope string_scope.
Local Open Scope list_scope.
Local Open Scope nat_scope.

(** ** The distance function *)
Section Distance.
Import Geo GeoFacts.
Local Open Scope R_scope.

(** C9: [distance] is symmetric in its two coordinate pairs. *)
Theorem distance_symmetric (lat1 lon1 lat2 lon2 : R) :
  distance (Some lat1) (Some lon1) (Some lat2) (Some lon2)
  = distance (Some lat2) (Some lon2) (Some lat1) (Some lon1).
Proof.
  rewrite !distance_some; unfold haversine_km; now rewrite hav_swap.
Qed.

End Distance.

Section FloatDistance.
Import Floats GeoFloat GeoFloatFacts.
Local Open Scope float_scope.

(** C3 (code bug): with a coordinate [None], [distance] returns the
    Python int [-1] ([return -1]), not the float [-1.0] that its [-> float]
    annotation and [udf(distance, FloatType())] call for; and with all four
    coordinates present it can raise: for (-82, -180) and (82, 0), with
    the correctly rounded [sin], [cos] and [pow] at the arguments it
    reaches, the rounded [a] is 1.0000000000000002, and [sqrt(1 - a)]
    raises [ValueError: math domain error]. *)
Theorem distance_int_sentinel_and_domain_error (sin cos : float -> float)
    (atan2 pow : float -> float -> float)
    (H1 : sin (radians 82) = sin_82) (H2 : sin (radians 90) = 1)
    (H3 : cos (radians (-82)) = cos_82) (H4 : cos (radians 82) = cos_82)
    (H5 : pow sin_82 2 = sin_82 * sin_82) :
  (forall lat1 lon1 lat2 lon2,
      lat1 = None \/ lon1 = None \/ lat2 = None \/ lon2 = None ->
      distance sin cos atan2 pow lat1 lon1 lat2 lon2 = Ret (PyInt (-1))
      /\ distance sin cos atan2 pow lat1 lon1 lat2 lon2 <> Ret (PyFloat (-1)))
  /\ distance sin cos atan2 pow (Some (-82)) (Some (-180)) (Some 82) (Some 0)
     = Raise domain_error.
Proof.
  split.
  - intros lat1 lon1 lat2 lon2 H; rewrite (distance_none_float sin cos atan2 pow _ _ _ _ H).
    split; [reflexivity | discriminate].
  - exact (antipode_domain_error sin cos atan2 pow H1 H2 H3 H4 H5).
Qed.

(** C10 (code bug): for a flight with a missing coordinate [distance]
    returns the int [-1], which the [FloatType] UDF stores as null: the
    [distance] column holds null, never [-1].  And for the points
    (-82, -180) and (82, 0) the UDF raises, so the job fails instead of
    attaching a value. *)
Theorem distance_column_null_for_sentinel (sin cos : float -> float)
    (atan2 pow : float -> float -> float)
    (H1 : sin (radians 82) = sin_82) (H2 : sin (radians 90) = 1)
    (H3 : cos (radians (-82)) = cos_82) (H4 : cos (radians 82) = cos_82)
    (H5 : pow sin_82 2 = sin_82 * sin_82) :
  (forall lat1 lon1 lat2 lon2,
      lat1 = None \/ lon1 = None \/ lat2 = None \/ lon2 = None ->
      distance sin cos atan2 pow lat1 lon1 lat2 lon2 = Ret (PyInt (-1))
      /\ distance_udf sin cos atan2 pow lat1 lon1 lat2 lon2 = Some None)
  /\ distance_udf sin cos atan2 pow (Some (-82)) (Some (-180)) (Some 82) (Some 0) = None.
Proof.
  split.
  - intros lat1 lon1 lat2 lon2 H; unfold distance_udf.
    rewrite (distance_none_float sin cos atan2 pow _ _ _ _ H); split; reflexivity.
  - unfold distance_udf; now rewrite (antipode_domain_error sin cos atan2 pow H1 H2 H3 H4 H5).
Qed.

(** The correctly rounded C library at the arguments used above (any
    other argument is irrelevant there). *)
Lemma distance_int_sentinel_and_domain_error_witness :
  let sin := fun x => if PrimFloat.eqb x (radians 82) then sin_82
                      else if PrimFloat.eqb x (radians 90) then 1 else 0 in
  let cos := fun x => if PrimFloat.eqb x (radians 82) then cos_82
                      else if PrimFloat.eqb x (radians (-82)) then cos_82 else 1 in
  let atan2 := fun _ _ : float => 0 in
  let pow := fun x y : float => x * x in
  (sin (radians 82) = sin_82 /\ sin (radians 90) = 1
   /\ cos (radians (-82)) = cos_82 /\ cos (radians 82) = cos_82
   /\ pow sin_82 2 = sin_82 * sin_82)
  /\ distance sin cos atan2 pow (Some (-82)) (Some (-180)) (Some 82) (Some 0)
     = Raise domain_error.
Proof.
  intros sin cos atan2 pow.
  assert (H1 : sin (radians 82) = sin_82) by reflexivity.
  assert (H2 : sin (radians 90) = 1) by reflexivity.
  assert (H3 : cos (radians (-82)) = cos_82) by reflexivity.
  assert (H4 : cos (radians 82) = cos_82) by reflexivity.
  assert (H5 : pow sin_82 2 = sin_82 * sin_82) by reflexivity.
  split; [repeat split; assumption |].
  exact (proj2 (distance_int_sentinel_and_domain_error sin cos atan2 pow H1 H2 H3 H4 H5)).
Defined.

Lemma distance_column_null_for_sentinel_witness :
  let sin := fun x => if PrimFloat.eqb x (radians 82) then sin_82
                      else if PrimFloat.eqb x (radians 90) then 1 else 0 in
  let cos := fun x => if PrimFloat.eqb x (radians 82) then cos_82
                      else if PrimFloat.eqb x (radians (-82)) then cos_82 else 1 in
  let atan2 := fun _ _ : float => 0 in
  let pow := fun x y : float => x * x in
  (sin (radians 82) = sin_82 /\ sin (radians 90) = 1
   /\ cos (radians (-82)) = cos_82 /\ cos (radians 82) = cos_82
   /\ pow sin_82 2 = sin_82 * sin_82)
  /\ distance_udf sin cos atan2 pow (Some (-82)) (Some (-180)) (Some 82) (Some 0) = None.
Proof.
  intros sin cos atan2 pow.
  assert (H1 : sin (radians 82) = sin_82) by reflexivity.
  assert (H2 : sin (radians 90) = 1) by reflexivity.
  assert (H3 : cos (radians (-82)) = cos_82) by reflexivity.
  assert (H4 : cos (radians 82) = cos_82) by reflexivity.
  assert (H5 : pow sin_82 2 = sin_82 * sin_82) by reflexivity.
  split; [repeat split; assumption |].
  exact (proj2 (distance_column_null_for_sentinel sin cos atan2 pow H1 H2 H3 H4 H5)).
Defined.

End FloatDistance.

(** ** Cleaning *)

(** C4: clean_dataframe keeps exactly the rows whose origin and
    destination codes are present and are not a placeholder ("NaN",
    "N/A"); the rows it keeps are the input rows themselves, unchanged. *)
Theorem clean_dataframe_exact (df : frame) :
  cols (clean_dataframe df) = cols df
  /\ rows (clean_dataframe df)
     = filter (fun r => usable_code (col r "origin_airport_iata")
                        && usable_code (col r "destination_airport_iata")) (rows df)
  /\ length (rows (clean_dataframe df)) <= length (rows df)
  /\ (forall r, In r (rows (clean_dataframe df)) -> In r (rows df)).
Proof.
  assert (E : rows (clean_dataframe df)
              = filter (fun r => usable_code (col r "origin_airport_iata")
                                 && usable_code (col r "destination_airport_iata")) (rows df)).
  { unfold clean_dataframe, filter_df; cbn [rows].
    rewrite filter_filter_and; apply filter_ext; intros r.
    rewrite !clean_condition; apply andb_comm. }
  split; [reflexivity |]; split; [exact E |]; split.
  - rewrite E; apply filter_length_le.
  - intros r Hr; rewrite E in Hr; apply filter_In in Hr; tauto.
Qed.

(** ** Q4 *)

(** C5: Q4 averages the distance of each origin continent over the rows
    with [distance > 0] only: the rows with a distance that is null or
    [<= 0] do not change its result, each mean is the arithmetic mean of
    the group's positive distances, every continent with a positive row
    has a mean, and the final table attaches the continent names. *)
Theorem q4_mean_over_positive_distances (df : frame) :
  (forall r, positive_distance r = true <->
             exists q, num (col r "distance") = Some q /\ (0 < q)%Q)
  /\ q4_agg df = q4_agg (Frame (cols df) (filter positive_distance (rows df)))
  /\ (forall c l1 r l2, positive_distance r = false ->
        q4_agg (Frame c (l1 ++ r :: l2)) = q4_agg (Frame c (l1 ++ l2)))
  /\ (forall k m, In (k, m) (q4_agg df) ->
        let g := filter (fun r => positive_distance r
                                  && decb value_eq_dec (col r "origin_airport_continent") k)
                        (rows df) in
        g <> []
        /\ length (nums (map (fun r => col r "distance") g)) = length g
        /\ m = VFloat (mean_Q (nums (map (fun r => col r "distance") g))))
  /\ (forall r, In r (rows df) -> positive_distance r = true ->
        In (col r "origin_airport_continent") (map fst (q4_agg df)))
  /\ q4 df = flat_map (fun km => map (fun nm => (snd km, nm)) (continent_names (fst km)))
                      (q4_agg df).
Proof.
  split; [exact positive_distance_iff |].
  split.
  { unfold q4_agg; simpl; f_equal; f_equal.
    rewrite filter_filter_and; apply filter_ext; intros r; now destruct (positive_distance r). }
  split.
  { intros c l1 r l2 Hr; unfold q4_agg; simpl.
    rewrite !filter_app; simpl; rewrite Hr; reflexivity. }
  split; [exact (q4_group_mean df) |].
  split.
  { intros r Hr Hp; rewrite in_map_iff.
    eexists (_, _); split; [reflexivity |].
    apply in_q4_agg; split; [apply (in_map (fun r0 => col r0 "origin_airport_continent")), filter_In; tauto | reflexivity]. }
  reflexivity.
Qed.

(** ** Empty inputs *)

(** C8: on an empty active set and an empty enriched set the seven
    queries return no row; Q4 has no row for a continent none of whose
    rows has [distance > 0], and each of its means is a number. *)
Theorem queries_on_empty_inputs (ca ce : list string) :
  q1 (Frame ca []) = [] /\ q2 (Frame ca []) = [] /\ q3 (Frame ca []) = []
  /\ q4 (Frame ce []) = [] /\ q5 (Frame ca []) = [] /\ q6 (Frame ce []) = []
  /\ qb (Frame ce []) = []
  /\ (forall df k, (forall r, In r (rows df) -> col r "origin_airport_continent" = k ->
                              positive_distance r = false) ->
                   ~ In k (map fst (q4_agg df)))
  /\ (forall df k m, In (k, m) (q4_agg df) -> exists q, m = VFloat q).
Proof.
  do 7 (split; [reflexivity |]).
  split.
  - intros df k H Hin; apply in_map_iff in Hin; destruct Hin as [[k' m] [E Hin]].
    simpl in E; subst k'.
    apply in_q4_agg in Hin; destruct Hin as [Hk _].
    apply in_map_iff in Hk; destruct Hk as [r [Hrk Hr]].
    apply filter_In in Hr; destruct Hr as [Hr Hp].
    rewrite (H r Hr Hrk) in Hp; discriminate.
  - intros df k m Hin.
    destruct (q4_group_mean df k m Hin) as [_ [_ ->]].
    eexists; reflexivity.
Qed.

(** ** Q6 *)

(** C7: Q6 drops the (airline, aircraft) groups with a null airline or
    a null aircraft, and for an airline [s] it returns at most three rows,
    for distinct aircraft, each with that pair's flight count; every
    aircraft of [s] it leaves out has a count no larger than each kept one,
    and it leaves one out only when it already returns three rows. *)
Theorem q6_top3_per_airline (df : frame) (s : string) :
  (forall t, In t (q6 df) -> fst (fst t) <> VNull /\ snd (fst t) <> VNull)
  /\ (let sel := filter (fun t => decb value_eq_dec (fst (fst t)) (VStr s)) (q6 df) in
      length sel <= 3
      /\ NoDup (map (fun t => snd (fst t)) sel)
      /\ (forall t, In t sel -> snd t = pair_count df (VStr s) (snd (fst t)))
      /\ (forall t ac, In t sel -> ac <> VNull -> ~ In ac (map (fun t => snd (fst t)) sel) ->
            pair_count df (VStr s) ac <= snd t)
      /\ (forall ac, ac <> VNull -> 0 < pair_count df (VStr s) ac ->
            ~ In ac (map (fun t => snd (fst t)) sel) -> length sel = 3)).
Proof.
  split.
  { intros t Ht; apply in_row_number_le, in_q6_filtered in Ht; tauto. }
  intros sel.
  set (P := filter (fun t => decb value_eq_dec (fst (fst t)) (VStr s)) (q6_filtered df)).
  assert (HP : forall t, In t P <-> fst (fst t) = VStr s /\ In t (q6_filtered df)).
  { intros t; unfold P; rewrite filter_In, decb_true; tauto. }
  assert (Hentry : forall ac, ac <> VNull -> 0 < pair_count df (VStr s) ac ->
                   In (VStr s, ac, pair_count df (VStr s) ac) P).
  { intros ac Hac Hpos; apply HP; split; [reflexivity |].
    apply in_q6_filtered; cbn [fst snd].
    split; [discriminate |]; split; [exact Hac |]; split; [now apply pair_count_pos |].
    symmetry; apply q6_count_is_pair_count. }
  assert (Hcount : forall t, In t P -> snd t = pair_count df (VStr s) (snd (fst t))).
  { intros [[a c] n] Ht; apply HP in Ht; destruct Ht as [Ha Ht]; cbn [fst snd] in *; subst a.
    apply in_q6_filtered in Ht; destruct Ht as [_ [_ [_ Hn]]]; cbn [fst snd] in Hn.
    rewrite Hn; apply q6_count_is_pair_count. }
  assert (Hnd : NoDup (map (fun t => snd (fst t)) P)).
  { apply (NoDup_map_change fst); [unfold P; apply NoDup_map_filter, NoDup_q6_filtered |].
    intros [[a1 c1] n1] [[a2 c2] n2] Hx Hy E; apply HP in Hx; apply HP in Hy.
    cbn [fst snd] in *; destruct Hx as [-> _], Hy as [-> _]; congruence. }
  destruct (in_dec value_eq_dec (VStr s) (map (fun t => fst (fst t)) (q6_filtered df)))
    as [Hin | Hnin].
  - assert (Hsel : sel = firstn 3 (sort_desc snd P))
      by (unfold sel, q6, P; apply row_number_le_part; exact Hin).
    clearbody sel; subst sel.
    set (L := sort_desc snd P).
    assert (HL : forall t, In t L <-> In t P).
    { intros t; split; apply Permutation_in;
        [apply sort_desc_perm | apply Permutation_sym, sort_desc_perm]. }
    assert (Hout : forall ac, ac <> VNull -> 0 < pair_count df (VStr s) ac ->
                   ~ In ac (map (fun t => snd (fst t)) (firstn 3 L)) ->
                   In (VStr s, ac, pair_count df (VStr s) ac) (skipn 3 L)).
    { intros ac Hac Hpos Hnot.
      assert (Hu : In (VStr s, ac, pair_count df (VStr s) ac) L) by (apply HL; auto).
      rewrite <- (firstn_skipn 3 L) in Hu; apply in_app_or in Hu.
      destruct Hu as [Hu | Hu]; [| exact Hu].
      exfalso; apply Hnot; apply (in_map (fun t => snd (fst t))) in Hu; exact Hu. }
    split; [apply firstn_le_length |].
    split.
    { apply NoDup_firstn_map.
      apply (Permutation_NoDup (Permutation_map _ (Permutation_sym (sort_desc_perm snd P)))).
      exact Hnd. }
    split.
    { intros t Ht; apply Hcount, HL, (in_firstn 3); exact Ht. }
    split.
    { intros t ac Ht Hac Hnot.
      destruct (Nat.eq_dec (pair_count df (VStr s) ac) 0) as [-> | Hne]; [lia |].
      pose proof (Hout ac Hac ltac:(lia) Hnot) as Hu.
      exact (sort_firstn_dominates snd P 3 t _ Ht Hu). }
    intros ac Hac Hpos Hnot.
    pose proof (Hout ac Hac Hpos Hnot) as Hu.
    assert (Hlen : 0 < length (skipn 3 L)) by (destruct (skipn 3 L); [destruct Hu | simpl; lia]).
    rewrite length_skipn in Hlen; rewrite length_firstn; lia.
  - assert (Hsel : sel = []).
    { unfold sel; apply filter_all_false; intros t Ht.
      destruct (decb value_eq_dec (fst (fst t)) (VStr s)) eqn:E; [| reflexivity].
      exfalso; apply Hnin; apply decb_true in E; rewrite <- E.
      apply (in_map (fun t => fst (fst t))); exact (in_row_number_le _ _ _ _ _ _ Ht). }
    clearbody sel; subst sel; cbn.
    split; [lia |]; split; [constructor |].
    split; [intros t [] |]; split; [intros t ac [] |].
    intros ac Hac Hpos _; exfalso; apply Hnin.
    apply in_map_iff; exists (VStr s, ac, pair_count df (VStr s) ac); split; [reflexivity |].
    apply HP, Hentry; assumption.
Qed.

(** ** Q2 *)

(** An active flight inside continent "AN" (Antarctica), which the
    six-entry continent table does not list. *)
Definition q2_antarctic_frame : frame :=
  Frame ["origin_airport_continent"; "destination_airport_continent"; "airline_name"]
        [[("origin_airport_continent", VStr "AN"); ("destination_airport_continent", VStr "AN");
          ("airline_name", VStr "X")]].

(** C6 (counterexample): Q2 returns the row of continent "AN" with a null
    continent name, since the continent table has no "AN" entry (and the
    code column is dropped, so the continent is not attached at all). *)
Lemma q2_unnamed_continent :
  q2 q2_antarctic_frame = [(VStr "X", 1, VNull)].
Proof. vm_compute; reflexivity. Qed.

(** C6 (amended): Q2 groups the active flights by (origin continent,
    destination continent, airline), keeps the groups with equal continents
    and, for each continent code [s], keeps at most one (continent, airline,
    count) row; it keeps one exactly when some active flight goes from [s]
    to [s], and the kept airline's count is its regional count
    (non-null airline names), at least that of every other airline on
    [s]-to-[s] flights; the kept airline may be null, with count 0, when
    all these flights have a null airline.  Each kept row is output with
    the display name of its continent, which is null for a code outside the
    six-entry table (NA, SA, EU, AS, AF, OC); the continent code itself is
    not part of the output. *)
Theorem q2_top_regional_airline (active : frame) (s : string) :
  q2 active = flat_map (fun t => map (fun nm => (snd (fst t), snd t, nm))
                                     (continent_names (fst (fst t))))
                       (q2_ranked active)
  /\ (forall t, In t (q2_ranked active) -> fst (fst t) <> VNull)
  /\ (In s (map snd df_continent) ->
      exists nm, In (nm, s) df_continent /\ continent_names (VStr s) = [VStr nm])
  /\ (~ In s (map snd df_continent) -> continent_names (VStr s) = [VNull])
  /\ (let sel := filter (fun t => decb value_eq_dec (fst (fst t)) (VStr s)) (q2_ranked active) in
      length sel <= 1
      /\ (sel <> [] <-> exists r, In r (rows active)
                                  /\ col r "origin_airport_continent" = VStr s
                                  /\ col r "destination_airport_continent" = VStr s)
      /\ (forall t, In t sel ->
            snd t = regional_count active s (snd (fst t))
            /\ forall an, regional_count active s an <= snd t)).
Proof.
  split.
  { unfold q2; apply flat_map_ext; intros [[k an] n]; reflexivity. }
  split.
  { intros t Ht; apply in_row_number_le, q2_regional_part_str in Ht; exact Ht. }
  split; [apply continent_names_known |].
  split; [apply continent_names_unknown |].
  intros sel.
  set (P := filter (fun t => decb value_eq_dec (fst (fst t)) (VStr s)) (q2_regional active)).
  assert (HP : forall t, In t P <-> fst (fst t) = VStr s /\ In t (q2_regional active)).
  { intros t; unfold P; rewrite filter_In, decb_true; tauto. }
  destruct (in_dec value_eq_dec (VStr s) (map (fun t => fst (fst t)) (q2_regional active)))
    as [Hin | Hnin].
  - assert (Hsel : sel = firstn 1 (sort_desc snd P))
      by (unfold sel, q2_ranked, P; apply row_number_le_part; exact Hin).
    clearbody sel; subst sel.
    set (L := sort_desc snd P).
    assert (HL : forall t, In t L <-> In t P).
    { intros t; split; apply Permutation_in;
        [apply sort_desc_perm | apply Permutation_sym, sort_desc_perm]. }
    assert (Hex : exists r, In r (rows active)
                            /\ col r "origin_airport_continent" = VStr s
                            /\ col r "destination_airport_continent" = VStr s)
      by (apply key3_regional, in_q2_regional_part; exact Hin).
    split; [apply firstn_le_length |].
    split.
    { split; [intros _; exact Hex |]; intros _.
      apply in_map_iff in Hin; destruct Hin as [t0 [E0 H0]].
      assert (Ht0 : In t0 L) by (apply HL, HP; split; assumption).
      destruct L as [| u L']; [destruct Ht0 | discriminate]. }
    intros [[k an] n] Ht.
    assert (HtP : In (k, an, n) P) by (apply HL, (in_firstn 1); exact Ht).
    apply HP in HtP; destruct HtP as [Hk HtR]; cbn [fst snd] in *; subst k.
    apply in_q2_regional in HtR; destruct HtR as [_ Hn].
    split; [exact Hn |].
    intros an'.
    destruct (Nat.eq_dec (regional_count active s an') 0) as [-> | Hne]; [lia |].
    assert (Hu : In (VStr s, an', regional_count active s an') L).
    { apply HL, HP; split; [reflexivity |].
      apply in_q2_regional; split; [apply regional_count_pos; lia | reflexivity]. }
    rewrite <- (firstn_skipn 1 L) in Hu; apply in_app_or in Hu.
    destruct Hu as [Hu | Hu].
    + assert (Hone : forall (l : list (value * value * nat)) x y,
                 In x (firstn 1 l) -> In y (firstn 1 l) -> x = y)
        by (intros [| v l] x y; cbn; [intros [] | intros [<- | []] [<- | []]; reflexivity]).
      pose proof (Hone L _ _ Ht Hu) as E; injection E as _ ->; lia.
    + exact (sort_firstn_dominates snd P 1 (VStr s, an, n) _ Ht Hu).
  - assert (Hsel : sel = []).
    { unfold sel; apply filter_all_false; intros t Ht.
      destruct (decb value_eq_dec (fst (fst t)) (VStr s)) eqn:E; [| reflexivity].
      exfalso; apply Hnin; apply decb_true in E; rewrite <- E.
      apply (in_map (fun t => fst (fst t))); exact (in_row_number_le _ _ _ _ _ _ Ht). }
    clearbody sel; subst sel; cbn [length].
    split; [lia |].
    split; [| intros t []].
    split; [intros H; now destruct H |].
    intros Hex; exfalso; apply Hnin, in_q2_regional_part, key3_regional; exact Hex.
Qed.

(** ** Q3 and QB *)

(** An enriched set whose only flight goes from CDG to JFK. *)
Definition qb_one_flight_frame : frame :=
  Frame ["id"; "origin_airport_iata"; "destination_airport_iata"]
        [[("id", VStr "1"); ("origin_airport_iata", VStr "CDG");
          ("destination_airport_iata", VStr "JFK")]].

(** C1 (counterexample): QB returns nothing on this non-empty set: it
    joins the departure and the arrival counts with an inner join, and no
    airport is both an origin and a destination. *)
Lemma qb_empty_on_nonempty :
  rows qb_one_flight_frame <> [] /\ qb_diffs qb_one_flight_frame = []
  /\ qb qb_one_flight_frame = [].
Proof. vm_compute; repeat split; discriminate. Qed.

(** C1 (amended): Q3 returns exactly the active rows whose distance is
    the maximum distance of the active set, and is non-empty whenever some
    active row has a distance.  QB returns exactly the entries (airport, difference) of the
    joined table whose difference is the maximum of that table, and is
    non-empty exactly when that table is; an airport code [s] has an entry
    there exactly when [s] is both an origin and a destination of the
    enriched set, and its difference is |departures - arrivals|. *)
Theorem q3_qb_return_maxima (active df : frame) :
  (forall r, In r (q3 active) <->
             In r (rows active)
             /\ exists x, num (col r "distance") = Some x
                          /\ forall r' x', In r' (rows active) ->
                                           num (col r' "distance") = Some x' -> (x' <= x)%Q)
  /\ ((exists r x, In r (rows active) /\ num (col r "distance") = Some x) -> q3 active <> [])
  /\ (forall t, In t (qb df) <->
                In t (qb_diffs df) /\ forall u, In u (qb_diffs df) -> (snd u <= snd t)%Z)
  /\ (qb df <> [] <-> qb_diffs df <> [])
  /\ (forall s d, In (VStr s, d) (qb_diffs df) <->
        In (VStr s) (map (fun r => col r "origin_airport_iata") (rows df))
        /\ In (VStr s) (map (fun r => col r "destination_airport_iata") (rows df))
        /\ d = Z.abs (Z.of_nat (departures df s) - Z.of_nat (arrivals df s))).
Proof.
  set (vs := map (fun r => col r "distance") (rows active)).
  assert (Hq3 : forall r, In r (q3 active) <->
                          In r (rows active) /\ holds (sql_eq (col r "distance") (sql_max vs)) = true)
    by (intros r; unfold q3; cbv zeta; rewrite filter_In; reflexivity).
  assert (Hvs : forall v, In v vs <-> exists r, In r (rows active) /\ col r "distance" = v).
  { intros v; unfold vs; rewrite in_map_iff; firstorder. }
  destruct (sql_max_spec vs) as [[Hnone Hm] | [y [Hy [Hin Hmax]]]].
  - split.
    { intros r; rewrite Hq3, Hm, sql_eq_null; cbn [holds]; split; [intros [_ H]; discriminate H |].
      intros [Hr [x [Hx _]]]; rewrite (Hnone _ (in_map _ _ _ Hr)) in Hx; discriminate Hx. }
    split.
    { intros [r [x [Hr Hx]]]; rewrite (Hnone _ (in_map _ _ _ Hr)) in Hx; discriminate Hx. }
    split; [apply in_qb |]; split; [apply qb_nonempty | apply in_qb_diffs].
  - assert (Hiff : forall r, In r (q3 active) <->
              In r (rows active)
              /\ exists x, num (col r "distance") = Some x
                           /\ forall r' x', In r' (rows active) ->
                                            num (col r' "distance") = Some x' -> (x' <= x)%Q).
    { intros r; rewrite Hq3, (sql_eq_num _ _ _ Hy); split.
      - intros [Hr [x [Hx Hxy]]]; split; [exact Hr |]; exists x; split; [exact Hx |].
        intros r' x' Hr' Hx'; rewrite Hxy; exact (Hmax _ _ (in_map _ _ _ Hr') Hx').
      - intros [Hr [x [Hx Hge]]]; split; [exact Hr |]; exists x; split; [exact Hx |].
        apply Hvs in Hin; destruct Hin as [r0 [Hr0 E0]].
        apply Qle_antisym; [exact (Hmax _ _ (in_map _ _ _ Hr) Hx) |].
        apply (Hge r0); [exact Hr0 | now rewrite E0]. }
    split; [exact Hiff |].
    split.
    { intros _ E.
      apply Hvs in Hin; destruct Hin as [r0 [Hr0 E0]].
      assert (Hr0q : In r0 (q3 active)).
      { apply Hq3; split; [exact Hr0 |]; rewrite E0.
        apply (sql_eq_num _ _ _ Hy); exists y; split; [exact Hy | apply Qeq_refl]. }
      rewrite E in Hr0q; destruct Hr0q. }
    split; [apply in_qb |]; split; [apply qb_nonempty | apply in_qb_diffs].
Qed.

(** ** Enrichment *)

(** An airport catalog listing CDG twice, a flight to CDG, and a flight of
    airline "AF" with an empty airline catalog. *)
Definition airports_cdg_twice : frame :=
  let cdg := [("iata_code", VStr "CDG"); ("continent", VStr "EU");
              ("latitude_deg", VStr "49.0"); ("longitude_deg", VStr "2.5")] in
  Frame ["iata_code"; "continent"; "latitude_deg"; "longitude_deg"] [cdg; cdg].

Definition flight_to_cdg : frame :=
  Frame ["destination_airport_iata"] [[("destination_airport_iata", VStr "CDG")]].

Definition no_airlines : frame := Frame ["_c1"; "_c3"; "_c4"] [].

Definition flight_of_af : frame := Frame ["airline_iata"] [[("airline_iata", VStr "AF")]].

(** C2 (counterexample): a flight whose destination code is listed twice
    in the airport catalog comes out of the destination join twice, and a
    flight with no airline match loses its [airline_iata] attribute, which
    the airline stage drops from every row. *)
Lemma enrichment_duplicates_and_drops :
  length (rows flight_to_cdg) = 1
  /\ length (rows (destination_join (fun v => v) airports_cdg_twice flight_to_cdg)) = 2
  /\ row_lookup [("airline_iata", VStr "AF")] "airline_iata" = Some (VStr "AF")
  /\ rows (add_airlines_dataframe no_airlines flight_of_af) = [[("airline_name", VNull)]].
Proof. vm_compute; repeat split. Qed.

(** C2 (amended): each enrichment join is a left outer join that drops no
    flight.  Its output is the concatenation, flight by flight and in order,
    of one block per input flight; the block of a flight has as many rows
    as the flight has matching catalog rows, and one row when it has none
    (so a flight appears exactly once when the catalog has at most one
    matching row, but once per match otherwise: an airport code listed
    twice, or an airline matched on ICAO and IATA by different rows).
    Each row of the block keeps every attribute of the flight, and the
    single row of an unmatched flight has null in each catalog column the
    flight did not have.  The airline stage is the exception: it removes
    the [airline_icao] and [airline_iata] columns from every row, matched
    or not, and keeps every other attribute. *)
Theorem enrichment_join_stages (cast_float : value -> value) (airports planes airlines df : frame) :
  (let cat := airport_destination cast_float airports in
   let on := fun a b => sql_eq (col a "destination_airport_iata") (col b "destination_airport_iata") in
   let pad := fun a => using_out "destination_airport_iata" a (null_row (cols cat)) in
   stage_of (rows (destination_join cast_float airports df)) (rows df)
            (matches_on on (rows cat)) preserves pad
   /\ new_cols_null (cols cat) pad
   /\ ((forall a, In a (rows df) -> matches_on on (rows cat) a <= 1) ->
       length (rows (destination_join cast_float airports df)) = length (rows df)))
  /\ (let cat := airport_origin cast_float airports in
      let on := fun a b => sql_eq (col a "origin_airport_iata") (col b "origin_airport_iata") in
      let pad := fun a => using_out "origin_airport_iata" a (null_row (cols cat)) in
      stage_of (rows (origin_join cast_float airports df)) (rows df)
               (matches_on on (rows cat)) preserves pad
      /\ new_cols_null (cols cat) pad
      /\ ((forall a, In a (rows df) -> matches_on on (rows cat) a <= 1) ->
          length (rows (origin_join cast_float airports df)) = length (rows df)))
  /\ (let cat := prepare_aircrafts planes in
      let on := fun a b => sql_eq (col a "aircraft_code") (col b "aircraft_code") in
      let pad := fun a => a ++ null_row (cols cat) in
      stage_of (rows (add_aircrafts_dataframe planes df)) (rows df)
               (matches_on on (rows cat)) preserves pad
      /\ new_cols_null (cols cat) pad)
  /\ (let cat := prepare_airlines airlines in
      let pad := fun a => airline_drops (a ++ null_row (cols cat)) in
      stage_of (rows (add_airlines_dataframe airlines df)) (rows df)
               (matches_on airline_cond (rows cat))
               (fun a r => preserves_except ["airline_icao"; "airline_iata"] a r
                           /\ row_lookup r "airline_iata" = None
                           /\ row_lookup r "airline_icao" = None)
               pad
      /\ new_cols_null (cols cat) pad).
Proof.
  split; [| split; [| split]]; cbv zeta.
  - split; [| split; [apply using_out_new_null |]].
    + eexists; split; [reflexivity |].
      apply left_join_row_stage; intros a b; apply using_out_preserves.
    + intros Hm; refine (stage_length _ _ preserves _ _ _ Hm).
      apply left_join_row_stage; intros a b; apply using_out_preserves.
  - split; [| split; [apply using_out_new_null |]].
    + eexists; split; [reflexivity |].
      apply left_join_row_stage; intros a b; apply using_out_preserves.
    + intros Hm; refine (stage_length _ _ preserves _ _ _ Hm).
      apply left_join_row_stage; intros a b; apply using_out_preserves.
  - split; [| apply app_new_null].
    eexists; split; [reflexivity |].
    apply left_join_row_stage; intros a b; apply app_preserves.
  - split; [| apply airline_drops_new_null].
    eexists; split.
    + unfold add_airlines_dataframe, drop, join_on_left; cbn [rows].
      rewrite map_map; apply map_flat_map_comm.
    + apply (left_join_stage_map _ _ (fun a r => exists b, r = a ++ b)).
      * apply left_join_row_stage; intros a b; now exists b.
      * intros a r [b ->]; apply airline_drops_keep.
Qed.

End Claims.

(* ================================================================== *)
(** * Further properties of the script *)
Module Extras.
Import Frames Queries SpecDefs ListFacts FrameFacts.
Local Open Scope string_scope.
Local Open Scope list_scope.
Local Open Scope nat_scope.

(** ** The distance function *)
Section DistanceFacts.
Import Geo GeoFacts.
Local Open Scope R_scope.

Lemma hav_same_point (lat lon : R) : hav lat lon lat lon = 0.
Proof.
  unfold hav.
  replace ((radians lat - radians lat) / 2) with 0 by field.
  replace ((radians lon - radians lon) / 2) with 0 by field.
  rewrite sin_0; ring.
Qed.

(** [distance] is zero from a point to itself. *)
Theorem distance_same_point (lat lon : R) :
  distance (Some lat) (Some lon) (Some lat) (Some lon) = Ret (PyFloat 0).
Proof.
  rewrite distance_some; unfold haversine_km.
  rewrite hav_same_point, sqrt_0, asin_0.
  do 2 f_equal; ring.
Qed.

End DistanceFacts.

(** ** Cleaning and activity *)

(** Cleaning twice is cleaning once. *)
Theorem clean_dataframe_idempotent (df : frame) :
  clean_dataframe (clean_dataframe df) = clean_dataframe df.
Proof.
  unfold clean_dataframe, filter_df; cbv zeta; cbn [cols rows].
  f_equal; rewrite !filter_filter_and; apply filter_ext; intros r.
  destruct (holds (sql_not (sql_isin (col r "destination_airport_iata") placeholders))),
           (holds (sql_not (sql_isin (col r "origin_airport_iata") placeholders))); reflexivity.
Qed.

(** get_active_flights keeps the schema and a subset of the rows,
    unchanged; a flight with a null [on_ground] is never active, and one
    with a numeric [on_ground] is active exactly when it is 0. *)
Theorem get_active_flights_on_ground (df : frame) :
  cols (get_active_flights df) = cols df
  /\ (forall r, In r (rows (get_active_flights df)) -> In r (rows df))
  /\ (forall r, col r "on_ground" = VNull -> ~ In r (rows (get_active_flights df)))
  /\ (forall r q, In r (rows df) -> num (col r "on_ground") = Some q ->
        (In r (rows (get_active_flights df)) <-> (q == 0)%Q)).
Proof.
  unfold get_active_flights, filter_df; cbn [cols rows].
  split; [reflexivity |]; split; [| split].
  - intros r Hr; apply filter_In in Hr; tauto.
  - intros r Hn Hr; apply filter_In in Hr; destruct Hr as [_ Hr].
    rewrite Hn in Hr; discriminate Hr.
  - intros r q Hr Hq; rewrite filter_In, (sql_eq_num _ (VInt 0) 0%Q eq_refl).
    split.
    + intros [_ [x [Hx Hx0]]]; rewrite Hq in Hx; injection Hx as <-; exact Hx0.
    + intros H0; split; [exact Hr | exists q; split; [exact Hq | exact H0]].
Qed.

(** ** Q1 and Q5: the most frequent value of a column *)

Lemma firstn_one_same {A : Type} (l : list A) (x y : A) :
  In x (firstn 1 l) -> In y (firstn 1 l) -> x = y.
Proof. destruct l as [| v l]; cbn; [intros [] | intros [<- | []] [<- | []]; reflexivity]. Qed.

Lemma count_where_null (df : frame) (c : string) : count_where df c VNull = 0.
Proof.
  unfold count_where, count_nonnull.
  rewrite filter_filter_and, filter_all_false; [reflexivity |].
  intros r _; unfold value_eqb; destruct (value_eq_dec (col r c) VNull) as [-> |]; reflexivity.
Qed.

Section Top1.
Variable c : string.
Variable rs : list row.

Local Abbreviation G := (map (fun kr => (fst kr, count_nonnull c (snd kr)))
                         (group_by value_eq_dec (fun r => col r c) rs)).

Lemma in_top1_groups (k : value) (n : nat) :
  In (k, n) G <-> In k (map (fun r => col r c) rs)
                  /\ n = count_nonnull c (filter (fun r => value_eqb (col r c) k) rs).
Proof.
  rewrite in_map_iff; split.
  - intros [[k' g] [E Hg]]; injection E as -> <-.
    apply in_group_by in Hg; destruct Hg as [Hk ->]; split; [exact Hk | reflexivity].
  - intros [Hk ->]; exists (k, filter (fun r => decb value_eq_dec (col r c) k) rs).
    split; [reflexivity |]; apply in_group_by; split; [exact Hk | reflexivity].
Qed.

Lemma top1_group :
  (rs = [] -> firstn 1 (sort_desc snd G) = [])
  /\ (rs <> [] -> length (firstn 1 (sort_desc snd G)) = 1)
  /\ (forall k n, In (k, n) (firstn 1 (sort_desc snd G)) ->
        In k (map (fun r => col r c) rs)
        /\ n = count_nonnull c (filter (fun r => value_eqb (col r c) k) rs)
        /\ forall k', In k' (map (fun r => col r c) rs) ->
             count_nonnull c (filter (fun r => value_eqb (col r c) k') rs) <= n).
Proof.
  assert (HL : forall t, In t (sort_desc snd G) <-> In t G).
  { intros t; split; apply Permutation_in;
      [apply sort_desc_perm | apply Permutation_sym, sort_desc_perm]. }
  split; [intros ->; reflexivity |].
  split.
  - intros Hne.
    assert (Hr0 : exists r0, In r0 rs) by (destruct rs as [| r0 ?]; [contradiction | exists r0; now left]).
    destruct Hr0 as [r0 Hr0].
    assert (Hin : In (col r0 c, count_nonnull c (filter (fun r => value_eqb (col r c) (col r0 c)) rs))
                     (sort_desc snd G))
      by (apply HL, in_top1_groups; split; [exact (in_map (fun r => col r c) _ _ Hr0) | reflexivity]).
    destruct (sort_desc snd G); [destruct Hin | reflexivity].
  - intros k n Ht.
    assert (HtG : In (k, n) G) by (apply HL, (in_firstn 1); exact Ht).
    apply in_top1_groups in HtG; destruct HtG as [Hk Hn].
    split; [exact Hk |]; split; [exact Hn |].
    intros k' Hk'.
    assert (Hu : In (k', count_nonnull c (filter (fun r => value_eqb (col r c) k') rs))
                    (sort_desc snd G))
      by (apply HL, in_top1_groups; split; [exact Hk' | reflexivity]).
    rewrite <- (firstn_skipn 1 (sort_desc snd G)) in Hu; apply in_app_or in Hu.
    destruct Hu as [Hu | Hu].
    + pose proof (firstn_one_same _ _ _ Ht Hu) as E; injection E as _ E; lia.
    + exact (sort_firstn_dominates snd G 1 (k, n) _ Ht Hu).
Qed.

End Top1.

(** Q1 returns no row when there is no active flight and one row
    otherwise: an airline name of an active flight with its count of
    flights, no smaller than the count of any other airline name; the
    null airline counts 0, so it is returned only when no airline has a
    named flight. *)
Theorem q1_most_active_airline (active : frame) :
  (rows active = [] -> q1 active = [])
  /\ (rows active <> [] -> length (q1 active) = 1)
  /\ (forall an n, In (an, n) (q1 active) ->
        In an (map (fun r => col r "airline_name") (rows active))
        /\ n = count_where active "airline_name" an
        /\ forall an', In an' (map (fun r => col r "airline_name") (rows active)) ->
             count_where active "airline_name" an' <= n)
  /\ count_where active "airline_name" VNull = 0.
Proof.
  pose proof (top1_group "airline_name" (rows active)) as H.
  unfold q1, count_where; cbv zeta.
  split; [| split; [| split]]; try tauto.
  apply count_where_null.
Qed.

(** Q5, the same for the aircraft names. *)
Theorem q5_most_used_aircraft (active : frame) :
  (rows active = [] -> q5 active = [])
  /\ (rows active <> [] -> length (q5 active) = 1)
  /\ (forall ac n, In (ac, n) (q5 active) ->
        In ac (map (fun r => col r "aircraft_name") (rows active))
        /\ n = count_where active "aircraft_name" ac
        /\ forall ac', In ac' (map (fun r => col r "aircraft_name") (rows active)) ->
             count_where active "aircraft_name" ac' <= n)
  /\ count_where active "aircraft_name" VNull = 0.
Proof.
  pose proof (top1_group "aircraft_name" (rows active)) as H.
  unfold q5, count_where; cbv zeta.
  split; [| split; [| split]]; try tauto.
  apply count_where_null.
Qed.

(** ** The continent lookup *)

Lemma continent_names_length (k : value) : length (continent_names k) = 1.
Proof.
  destruct k as [| s | z | q | b]; try reflexivity.
  destruct (in_dec string_dec s (map snd df_continent)) as [Hs | Hs].
  - destruct (continent_names_known s Hs) as [nm [_ ->]]; reflexivity.
  - now rewrite continent_names_unknown.
Qed.

Lemma length_flat_map_one {A B : Type} (f : A -> list B) (l : list A) :
  (forall x, length (f x) = 1) -> length (flat_map f l) = length l.
Proof.
  intros Hf; induction l as [| x l IH]; cbn; [reflexivity |].
  rewrite length_app, Hf, IH; reflexivity.
Qed.

(** The left join with df_continent attaches exactly one name to every
    code: the table's name to a code of the table, null to a null code and
    to a code outside the table.  So Q4 has one row per distinct origin
    continent (null included) among the flights with a positive distance,
    and Q2 one row per row of its window. *)
Theorem continent_join_one_row (df active : frame) :
  (forall k, exists nm, continent_names k = [nm])
  /\ (forall s, In s (map snd df_continent) ->
        exists nm, In (nm, s) df_continent /\ continent_names (VStr s) = [VStr nm])
  /\ (forall s, ~ In s (map snd df_continent) -> continent_names (VStr s) = [VNull])
  /\ continent_names VNull = [VNull]
  /\ length (q4 df)
     = length (nodup value_eq_dec (map (fun r => col r "origin_airport_continent")
                                       (filter positive_distance (rows df))))
  /\ length (q2 active) = length (q2_ranked active).
Proof.
  split; [| split; [| split; [| split; [| split]]]].
  - intros k; pose proof (continent_names_length k) as Hk.
    destruct (continent_names k) as [| nm [| ]]; try discriminate; now exists nm.
  - apply continent_names_known.
  - apply continent_names_unknown.
  - reflexivity.
  - unfold q4; rewrite length_flat_map_one
      by (intros km; rewrite length_map; apply continent_names_length).
    unfold q4_agg, group_by; now rewrite !length_map.
  - unfold q2; apply length_flat_map_one.
    intros [[k an] n]; rewrite length_map; apply continent_names_length.
Qed.

(** ** Flights with no catalog match *)

Lemma row_lookup_null_row_cases (cs : list string) (c : string) :
  row_lookup (null_row cs) c = Some VNull \/ row_lookup (null_row cs) c = None.
Proof.
  induction cs as [| c' cs IH]; cbn; [now right |].
  destruct (String.eqb c' c); [now left | exact IH].
Qed.

Lemma col_null_row_lookup (r : row) (c : string) :
  row_lookup r c = Some VNull \/ row_lookup r c = None -> col r c = VNull.
Proof. unfold col; intros [-> | ->]; reflexivity. Qed.

Lemma col_app_null_row (a : row) (cs : list string) (c : string) :
  col (a ++ null_row cs) c = col a c.
Proof.
  destruct (row_lookup a c) as [v |] eqn:E.
  - unfold col; rewrite (row_lookup_app_some _ _ _ _ E), E; reflexivity.
  - unfold col at 2; rewrite E; unfold col; rewrite row_lookup_app_none by exact E.
    fold (col (null_row cs) c); apply col_null_row_lookup, row_lookup_null_row_cases.
Qed.

Lemma col_using_out_null (key : string) (a : row) (cs : list string) (c : string) :
  col (using_out key a (null_row cs)) c = col a c.
Proof.
  unfold using_out; unfold col at 1; cbn [row_lookup].
  destruct (String.eqb key c) eqn:E; [apply String.eqb_eq in E; now subst c |].
  assert (Hk : keep_col [key] c = true)
    by (rewrite keep_col_single, String.eqb_sym, E; reflexivity).
  destruct (row_lookup a c) as [v |] eqn:Ea.
  - rewrite row_lookup_app_some with (v := v) by (rewrite row_lookup_drop by exact Hk; exact Ea).
    unfold col; now rewrite Ea.
  - rewrite row_lookup_app_none by (rewrite row_lookup_drop by exact Hk; exact Ea).
    rewrite row_lookup_drop by exact Hk.
    unfold col; rewrite Ea.
    fold (col (null_row cs) c); apply col_null_row_lookup, row_lookup_null_row_cases.
Qed.

Lemma col_airline_drops (r : row) (c : string) :
  c <> "airline_iata" -> c <> "airline_icao" -> col (airline_drops r) c = col r c.
Proof.
  intros H1 H2; unfold airline_drops, col.
  rewrite !row_lookup_drop; [reflexivity | |];
    rewrite keep_col_single; apply negb_true_iff, String.eqb_neq; assumption.
Qed.

Lemma row_lookup_set_map (c : string) (v : value) (r : row) (c' : string) :
  row_lookup (map (fun nv => if String.eqb (fst nv) c then (c, v) else nv) r) c'
  = if String.eqb c c'
    then (if existsb (fun nv => String.eqb (fst nv) c) r then Some v else None)
    else row_lookup r c'.
Proof.
  induction r as [| [n w] r IH]; cbn; [now destruct (String.eqb c c') |].
  destruct (String.eqb n c) eqn:Enc; cbn; rewrite IH.
  - apply String.eqb_eq in Enc; subst n; now destruct (String.eqb c c').
  - destruct (String.eqb c c') eqn:E; [| reflexivity].
    apply String.eqb_eq in E; subst c'; now rewrite Enc.
Qed.

Lemma row_lookup_existsb_false (c : string) (r : row) :
  existsb (fun nv => String.eqb (fst nv) c) r = false -> row_lookup r c = None.
Proof.
  induction r as [| [n w] r IH]; cbn; [reflexivity |].
  intros H; apply orb_false_iff in H; destruct H as [H1 H2]; rewrite H1; exact (IH H2).
Qed.

Lemma col_row_set (c : string) (v : value) (r : row) (c' : string) :
  col (row_set c v r) c' = if String.eqb c c' then v else col r c'.
Proof.
  unfold row_set, col.
  destruct (existsb (fun nv => String.eqb (fst nv) c) r) eqn:Ex.
  - rewrite row_lookup_set_map, Ex; now destruct (String.eqb c c').
  - destruct (String.eqb c c') eqn:E.
    + apply String.eqb_eq in E; subst c'.
      rewrite row_lookup_app_none by (now apply row_lookup_existsb_false); cbn.
      now rewrite String.eqb_refl.
    + destruct (row_lookup r c') as [w |] eqn:Er.
      * now rewrite (row_lookup_app_some _ _ _ _ Er).
      * rewrite row_lookup_app_none by exact Er; cbn; now rewrite E.
Qed.

Lemma sql_eq_str_l (s : string) (w : value) :
  holds (sql_eq (VStr s) w) = true -> w = VStr s.
Proof.
  destruct w as [| t | z | q | b]; cbn; try discriminate.
  destruct (String.eqb s t) eqn:E; [| discriminate].
  apply String.eqb_eq in E; now subst.
Qed.

Lemma unknown_code_false (cat : frame) (key : string) (v : value) (b : row) :
  unknown_code cat key v -> In b (rows cat) -> holds (sql_eq v (col b key)) = false.
Proof.
  intros [-> | [s [-> Hs]]] Hb; [reflexivity |].
  destruct (holds (sql_eq (VStr s) (col b key))) eqn:E; [| reflexivity].
  apply sql_eq_str_l in E; exfalso; apply Hs; rewrite <- E.
  exact (in_map (fun b => col b key) _ _ Hb).
Qed.

Lemma left_join_row_none (on : row -> row -> option bool) (out : row -> row -> row)
    (rr : list row) (nulls a : row) :
  (forall b, In b rr -> holds (on a b) = false) -> left_join_row on out rr nulls a = [out a nulls].
Proof. intros H; unfold left_join_row; now rewrite filter_all_false. Qed.

Lemma holds_or_false (x y : option bool) :
  holds x = false -> holds y = false -> holds (sql_or x y) = false.
Proof. destruct x as [[] |], y as [[] |]; cbn; congruence. Qed.

(** A flight whose destination and origin codes are both unknown to the
    airport catalog (null, or absent from it) comes out of
    add_distance_dataframe as exactly one row, that reads like the flight
    in every column but [distance], and whose [distance] is the UDF applied
    to the flight's own coordinate columns: four nulls for a flight that
    has none. *)
Theorem unmatched_flight_distance (cast_float : value -> value)
    (distance_col : value -> value -> value -> value -> value)
    (airports : frame) (cs : list string) (a : row)
    (Hd : unknown_code (airport_destination cast_float airports) "destination_airport_iata"
                       (col a "destination_airport_iata"))
    (Ho : unknown_code (airport_origin cast_float airports) "origin_airport_iata"
                       (col a "origin_airport_iata")) :
  exists r, rows (add_distance_dataframe cast_float distance_col airports (Frame cs [a])) = [r]
            /\ col r "distance"
               = distance_col (col a "origin_latitude_deg") (col a "origin_longitude_deg")
                              (col a "destination_latitude_deg") (col a "destination_longitude_deg")
            /\ forall c, c <> "distance" -> col r c = col a c.
Proof.
  set (r1 := using_out "destination_airport_iata" a
               (null_row (cols (airport_destination cast_float airports)))).
  set (r2 := using_out "origin_airport_iata" r1
               (null_row (cols (airport_origin cast_float airports)))).
  assert (E1 : rows (destination_join cast_float airports (Frame cs [a])) = [r1]).
  { unfold destination_join, join_using_left; cbn [rows flat_map].
    rewrite left_join_row_none; [reflexivity |].
    intros b Hb; exact (unknown_code_false _ _ _ b Hd Hb). }
  assert (Hc2 : forall c, col r2 c = col a c)
    by (intros c; unfold r2, r1; rewrite !col_using_out_null; reflexivity).
  assert (E2 : rows (origin_join cast_float airports (destination_join cast_float airports
                                                        (Frame cs [a]))) = [r2]).
  { unfold origin_join at 1, join_using_left at 1; cbn [rows]; rewrite E1; cbn [flat_map].
    rewrite left_join_row_none; [reflexivity |].
    intros b Hb.
    replace (col r1 "origin_airport_iata") with (col a "origin_airport_iata")
      by (unfold r1; now rewrite col_using_out_null).
    exact (unknown_code_false _ _ _ b Ho Hb). }
  unfold add_distance_dataframe, with_column; cbv zeta; cbn [rows]; rewrite E2; cbn [map].
  eexists; split; [reflexivity |]; split.
  - rewrite col_row_set, String.eqb_refl, !Hc2; reflexivity.
  - intros c Hc; rewrite col_row_set.
    destruct (String.eqb "distance" c) eqn:E; [apply String.eqb_eq in E; congruence |].
    apply Hc2.
Qed.

(** A flight whose aircraft code and both airline codes are unknown to the
    catalogs (null, or absent from them) comes out of the aircraft and
    airline joins as exactly one row; it has no [airline_iata] and no
    [airline_icao] column and reads like the flight in every other column:
    its aircraft and airline names are the flight's own, null when it has
    none. *)
Theorem unmatched_flight_aircraft_airline (planes airlines : frame) (cs : list string) (a : row)
    (Hac : unknown_code (prepare_aircrafts planes) "aircraft_code" (col a "aircraft_code"))
    (Hicao : unknown_code (prepare_airlines airlines) "airline_icao" (col a "airline_icao"))
    (Hiata : unknown_code (prepare_airlines airlines) "airline_iata" (col a "airline_iata")) :
  exists r, rows (add_airlines_dataframe airlines (add_aircrafts_dataframe planes (Frame cs [a])))
            = [r]
            /\ row_lookup r "airline_iata" = None /\ row_lookup r "airline_icao" = None
            /\ forall c, c <> "airline_iata" -> c <> "airline_icao" -> col r c = col a c.
Proof.
  set (r1 := a ++ null_row (cols (prepare_aircrafts planes))).
  assert (E1 : rows (add_aircrafts_dataframe planes (Frame cs [a])) = [r1]).
  { unfold add_aircrafts_dataframe, join_on_left; cbn [rows flat_map].
    rewrite left_join_row_none; [reflexivity |].
    intros b Hb; exact (unknown_code_false _ _ _ b Hac Hb). }
  assert (Hc1 : forall c, col r1 c = col a c) by (intros c; apply col_app_null_row).
  exists (airline_drops (r1 ++ null_row (cols (prepare_airlines airlines)))).
  split.
  - unfold add_airlines_dataframe, drop, join_on_left; cbv zeta; cbn [rows].
    rewrite E1; cbn [flat_map].
    rewrite left_join_row_none; [reflexivity |].
    intros b Hb; unfold airline_cond; rewrite !Hc1.
    apply holds_or_false; eapply unknown_code_false; eassumption.
  - destruct (airline_drops_keep r1 (null_row (cols (prepare_airlines airlines))))
      as [_ [Hi Hc]].
    split; [exact Hi |]; split; [exact Hc |].
    intros c H1 H2; rewrite col_airline_drops by assumption.
    rewrite col_app_null_row; apply Hc1.
Qed.

(** ** QB lists each airport once *)

Lemma length_le1_const {B K : Type} (f : B -> K) (l : list B) (k : K) :
  NoDup (map f l) -> (forall x, In x l -> f x = k) -> length l <= 1.
Proof.
  destruct l as [| x [| y l]]; cbn; intros Hn Hk; try lia.
  inversion Hn as [| ? ? Hx _]; subst; exfalso; apply Hx.
  left; rewrite (Hk x (or_introl eq_refl)); apply Hk; right; now left.
Qed.

Lemma NoDup_flat_map_keys {A B K : Type} (key : A -> K) (fk : B -> K) (g : A -> list B)
    (L : list A) :
  NoDup (map key L) ->
  (forall a, In a L -> length (g a) <= 1 /\ forall b, In b (g a) -> fk b = key a) ->
  NoDup (map fk (flat_map g L)).
Proof.
  induction L as [| a L IH]; intros Hn Hg; cbn; [constructor |].
  inversion Hn as [| ? ? Ha HL]; subst.
  rewrite map_app; apply NoDup_app.
  - destruct (Hg a (or_introl eq_refl)) as [Hl _].
    destruct (g a) as [| b [| b' ?]]; cbn in *; [constructor | repeat constructor; intros [] | lia].
  - apply IH; [exact HL | intros a' Ha'; apply Hg; now right].
  - intros k Hk Hk'.
    apply in_map_iff in Hk; destruct Hk as [b [<- Hb]].
    rewrite (proj2 (Hg a (or_introl eq_refl)) b Hb) in Hk'.
    apply in_map_iff in Hk'; destruct Hk' as [b' [E Hb']].
    apply in_flat_map in Hb'; destruct Hb' as [a' [Ha' Hb']].
    rewrite (proj2 (Hg a' (or_intror Ha')) b' Hb') in E.
    apply Ha; rewrite <- E; now apply in_map.
Qed.

Lemma NoDup_qb_counts (df : frame) (c : string) :
  NoDup (map fst (filter (fun kn => negb (is_null (fst kn)))
                   (map (fun kr => (fst kr, count_nonnull "id" (snd kr)))
                        (group_by value_eq_dec (fun r => col r c) (rows df))))).
Proof.
  apply NoDup_map_filter; rewrite map_map.
  pose proof (NoDup_nodup value_eq_dec (map (fun r => col r c) (rows df))) as H.
  rewrite <- group_by_keys in H; exact H.
Qed.

(** When every origin code of the enriched set is a string or null, the
    joined table of QB, and so QB itself, holds each airport code at most
    once. *)
Theorem qb_airports_unique (df : frame)
    (Hcodes : forall r, In r (rows df) -> string_or_null (col r "origin_airport_iata") = true) :
  NoDup (map fst (qb_diffs df)) /\ NoDup (map fst (qb df)).
Proof.
  assert (Hd : NoDup (map fst (qb_diffs df))).
  { unfold qb_diffs; apply NoDup_flat_map_keys with (key := fst);
      [apply NoDup_qb_counts |].
    intros [ko no] Ho.
    assert (Hs : exists s, ko = VStr s).
    { apply in_qb_group in Ho; destruct Ho as [Hnn [Hin _]].
      apply in_map_iff in Hin; destruct Hin as [r [Er Hr]].
      specialize (Hcodes r Hr); rewrite Er in Hcodes.
      destruct ko; try discriminate; [contradiction | now eexists]. }
    destruct Hs as [s ->]; cbn [fst].
    assert (Hkey : forall d, In d (filter (fun d => holds (sql_eq (VStr s) (fst d)))
                                         (qb_arrivals df)) -> fst d = VStr s).
    { intros d Hd; apply filter_In in Hd; apply sql_eq_str_l, Hd. }
    split.
    - rewrite length_map; apply (length_le1_const fst _ (VStr s)); [| exact Hkey].
      apply NoDup_map_filter, NoDup_qb_counts.
    - intros b Hb; apply in_map_iff in Hb; destruct Hb as [d [<- Hd]].
      exact (Hkey d Hd). }
  split; [exact Hd |].
  unfold qb; cbv zeta; apply NoDup_map_filter, Hd.
Qed.

(** ** The snapshot file name *)
Section FileName.
Import Snapshot.
Local Open Scope string_scope.

Lemma string_app_assoc (x y z : string) : (x ++ y) ++ z = x ++ y ++ z.
Proof. induction x as [| ch x IH]; cbn; [reflexivity | now rewrite IH]. Qed.

Lemma str_nat_teen (x : nat) : x < 10 -> str_nat (10 + x) = "1" ++ str_nat x.
Proof. intros H; do 10 (destruct x as [| x]; [reflexivity |]); lia. Qed.

(** get_file_name writes the time fields with no padding and no separator,
    so two different times of the same day get the same path: 1:1x vs
    11:x, and m:1:1x vs m:11:x for a digit x; the name only keeps the
    hundredths of a second, so times in the same hundredth share it too.
    When two runs of get_and_write_flights get the same path, the write
    with [mode='overwrite'] leaves the second snapshot there and the first
    nowhere: the storage is the one before both runs with that path set
    to the second snapshot. *)
Theorem get_file_name_collisions (dt : datetime) (x : nat) (Hx : x < 10) :
  (forall t1 t2 f1 f2 fs,
      get_file_name t1 = get_file_name t2 ->
      forall p, snd (get_and_write_flights t2 f2 (snd (get_and_write_flights t1 f1 fs))) p
                = if String.eqb p (get_file_name t1) then Some f2 else fs p)
  /\
  get_file_name (Datetime (year dt) (month dt) (day dt) 1 (10 + x) (second dt) (microsecond dt))
  = get_file_name (Datetime (year dt) (month dt) (day dt) 11 x (second dt) (microsecond dt))
  /\ get_file_name (Datetime (year dt) (month dt) (day dt) (hour dt) 1 (10 + x) (microsecond dt))
     = get_file_name (Datetime (year dt) (month dt) (day dt) (hour dt) 11 x (microsecond dt))
  /\ (forall us, us / 10000 = microsecond dt / 10000 ->
        get_file_name (Datetime (year dt) (month dt) (day dt) (hour dt) (minute dt) (second dt) us)
        = get_file_name dt).
Proof.
  split.
  { intros t1 t2 f1 f2 fs E p; unfold get_and_write_flights, write_csv_overwrite; cbn [snd]; rewrite <- E.
    now destruct (String.eqb p (get_file_name t1)). }
  unfold get_file_name; cbn [year month day hour minute second microsecond].
  rewrite str_nat_teen by exact Hx; rewrite !string_app_assoc.
  split; [reflexivity |]; split; [reflexivity |].
  intros us Hus; now rewrite Hus.
Qed.

End FileName.

(** ** Witnesses for the extras with hypotheses *)

Lemma unmatched_flight_distance_witness :
  let airports := Frame ["iata_code"; "continent"; "latitude_deg"; "longitude_deg"]
                    [[("iata_code", VStr "CDG"); ("continent", VStr "EU");
                      ("latitude_deg", VStr "49.0"); ("longitude_deg", VStr "2.5")]] in
  let a := [("destination_airport_iata", VStr "XXX"); ("origin_airport_iata", VNull);
            ("callsign", VStr "AFR123")] in
  unknown_code (airport_destination (fun v => v) airports) "destination_airport_iata"
               (col a "destination_airport_iata")
  /\ unknown_code (airport_origin (fun v => v) airports) "origin_airport_iata"
                  (col a "origin_airport_iata")
  /\ exists r, rows (add_distance_dataframe (fun v => v) (fun _ _ _ _ => VNull) airports
                       (Frame ["destination_airport_iata"; "origin_airport_iata"; "callsign"] [a]))
               = [r]
            /\ col r "distance" = VNull
            /\ forall c, c <> "distance" -> col r c = col a c.
Proof.
  intros airports a.
  assert (Hd : unknown_code (airport_destination (fun v => v) airports) "destination_airport_iata"
                            (col a "destination_airport_iata")).
  { right; exists "XXX"; split; [reflexivity |].
    vm_compute; intros [H | []]; discriminate H. }
  assert (Ho : unknown_code (airport_origin (fun v => v) airports) "origin_airport_iata"
                            (col a "origin_airport_iata")).
  { left; reflexivity. }
  split; [exact Hd |]; split; [exact Ho |].
  exact (unmatched_flight_distance (fun v => v) (fun _ _ _ _ => VNull) airports
           ["destination_airport_iata"; "origin_airport_iata"; "callsign"] a Hd Ho).
Defined.

Lemma unmatched_flight_aircraft_airline_witness :
  let planes := Frame ["_c0"; "_c1"; "_c2"]
                  [[("_c0", VStr "Airbus A320"); ("_c1", VStr "A320"); ("_c2", VStr "A320")]] in
  let airlines := Frame ["_c1"; "_c3"; "_c4"]
                    [[("_c1", VStr "Air France"); ("_c3", VStr "AF"); ("_c4", VStr "AFR")]] in
  let a := [("aircraft_code", VStr "B738"); ("airline_icao", VNull); ("airline_iata", VNull);
            ("callsign", VStr "X1")] in
  unknown_code (prepare_aircrafts planes) "aircraft_code" (col a "aircraft_code")
  /\ unknown_code (prepare_airlines airlines) "airline_icao" (col a "airline_icao")
  /\ unknown_code (prepare_airlines airlines) "airline_iata" (col a "airline_iata")
  /\ exists r, rows (add_airlines_dataframe airlines
                       (add_aircrafts_dataframe planes
                          (Frame ["aircraft_code"; "airline_icao"; "airline_iata"; "callsign"] [a])))
               = [r]
            /\ row_lookup r "airline_iata" = None /\ row_lookup r "airline_icao" = None
            /\ forall c, c <> "airline_iata" -> c <> "airline_icao" -> col r c = col a c.
Proof.
  intros planes airlines a.
  assert (Hac : unknown_code (prepare_aircrafts planes) "aircraft_code" (col a "aircraft_code")).
  { right; exists "B738"; split; [reflexivity |].
    vm_compute; intros [H | []]; discriminate H. }
  assert (Hicao : unknown_code (prepare_airlines airlines) "airline_icao" (col a "airline_icao")).
  { left; reflexivity. }
  assert (Hiata : unknown_code (prepare_airlines airlines) "airline_iata" (col a "airline_iata")).
  { left; reflexivity. }
  split; [exact Hac |]; split; [exact Hicao |]; split; [exact Hiata |].
  exact (unmatched_flight_aircraft_airline planes airlines
           ["aircraft_code"; "airline_icao"; "airline_iata"; "callsign"] a Hac Hicao Hiata).
Defined.

Lemma qb_airports_unique_witness :
  let df := Frame ["origin_airport_iata"; "destination_airport_iata"]
              [[("origin_airport_iata", VStr "CDG"); ("destination_airport_iata", VStr "JFK")];
               [("origin_airport_iata", VStr "JFK"); ("destination_airport_iata", VStr "CDG")];
               [("origin_airport_iata", VNull); ("destination_airport_iata", VStr "CDG")]] in
  (forall r, In r (rows df) -> string_or_null (col r "origin_airport_iata") = true)
  /\ NoDup (map fst (qb_diffs df)) /\ NoDup (map fst (qb df)).
Proof.
  intros df.
  assert (H : forall r, In r (rows df) -> string_or_null (col r "origin_airport_iata") = true).
  { intros r Hr; cbn in Hr; destruct Hr as [<- | [<- | [<- | []]]]; reflexivity. }
  split; [exact H |].
  exact (qb_airports_unique df H).
Defined.

Lemma get_file_name_collisions_witness :
  3 < 10
  /\ (forall t1 t2 f1 f2 fs,
      Snapshot.get_file_name t1 = Snapshot.get_file_name t2 ->
      forall p, snd (Snapshot.get_and_write_flights t2 f2
                       (snd (Snapshot.get_and_write_flights t1 f1 fs))) p
                = if String.eqb p (Snapshot.get_file_name t1) then Some f2 else fs p)
  /\ Snapshot.get_file_name (Snapshot.Datetime 2024 5 17 1 13 42 250000)
     = Snapshot.get_file_name (Snapshot.Datetime 2024 5 17 11 3 42 250000)
  /\ Snapshot.get_file_name (Snapshot.Datetime 2024 5 17 1 1 13 250000)
     = Snapshot.get_file_name (Snapshot.Datetime 2024 5 17 1 11 3 250000)
  /\ (forall us, us / 10000 = 250000 / 10000 ->
        Snapshot.get_file_name (Snapshot.Datetime 2024 5 17 1 1 42 us)
        = Snapshot.get_file_name (Snapshot.Datetime 2024 5 17 1 1 42 250000)).
Proof.
  split; [lia |].
  exact (get_file_name_collisions (Snapshot.Datetime 2024 5 17 1 1 42 250000) 3 ltac:(lia)).
Defined.

End Extras.
